(** * Model selectors of the ASL recognizer (recognizer/my_model_selectors.py)

    Shallow embedding of [ModelSelector] and its four strategies
    [SelectorConstant], [SelectorBIC], [SelectorDIC] and [SelectorCV].

    - Python exceptions are the [Raise] branch of the result type [res];
      [try]/[except] is a match on it.
    - Python floats are modelled as real numbers; [float("Inf")] and
      [-math.inf] are the two infinite points of [ereal].
    - hmmlearn's [GaussianHMM] is an external trainer: [gaussian_fit]
      returns [None] when [fit] raises, [model_score] returns [None] when
      [score] raises.  The selectors are defined over any such trainer. *)

From Stdlib Require Import List String Reals Lra Lia Bool Arith.
Import ListNotations.

(** ** Python runtime: exceptions, floats, range *)

Inductive exc : Type :=
| ValueError
| IndexError
| ZeroDivisionError
| AttributeError
| UnboundLocalError
| TrainerError.

Inductive res (A : Type) : Type :=
| Ret (a : A)
| Raise (e : exc).
Arguments Ret {A} a.
Arguments Raise {A} e.

Definition bind {A B : Type} (m : res A) (f : A -> res B) : res B :=
  match m with
  | Ret a => f a
  | Raise e => Raise e
  end.

Notation "x <- m ;; k" := (bind m (fun x => k))
  (at level 61, m at next level, right associativity).

(** [try: e except: None]: any exception becomes Python's [None]. *)
Definition catch_none {A : Type} (m : res A) : option A :=
  match m with
  | Ret a => Some a
  | Raise _ => None
  end.

(** Python float with its two infinities. *)
Inductive ereal : Type :=
| Fin (r : R)
| PInf
| NInf.

(** Python's [x < y] on floats. *)
Definition ereal_lt (x y : ereal) : bool :=
  match x, y with
  | Fin a, Fin b => if Rlt_dec a b then true else false
  | Fin _, PInf => true
  | NInf, Fin _ => true
  | NInf, PInf => true
  | _, _ => false
  end.

(** [math.log]: a [ValueError] outside the domain. *)
Definition py_log (x : R) : res R :=
  if Rlt_dec 0%R x then Ret (ln x) else Raise ValueError.

(** [x / y] on numbers: [ZeroDivisionError] on a zero divisor. *)
Definition py_div (x y : R) : res R :=
  if Req_EM_T y 0 then Raise ZeroDivisionError else Ret (x / y)%R.

(** [range(lo, hi + 1)] *)
Definition py_range_incl (lo hi : nat) : list nat := seq lo (S hi - lo).

(** [seq[i]] with Python's [IndexError]. *)
Definition py_index {A : Type} (l : list A) (i : nat) : res A :=
  match nth_error l i with
  | Some a => Ret a
  | None => Raise IndexError
  end.

Fixpoint map_res {A B : Type} (f : A -> res B) (l : list A) : res (list B) :=
  match l with
  | [] => Ret []
  | a :: l' => b <- f a ;; bs <- map_res f l' ;; Ret (b :: bs)
  end.

(** [np.mean] of a non-empty list. *)
Definition np_mean (l : list R) : R :=
  (fold_right Rplus 0 l / INR (List.length l))%R.

(** ** sklearn's [KFold(n_splits).split] (no shuffling)

    [n_splits > n_samples] raises [ValueError]; otherwise the first
    [n_samples mod n_splits] folds get one extra sample, each test fold is a
    contiguous block and its training set is the ordered complement. *)

Fixpoint kfold_folds (sizes : list nat) (current n_samples : nat)
  : list (list nat * list nat) :=
  match sizes with
  | [] => []
  | sz :: rest =>
      (seq 0 current ++ seq (current + sz) (n_samples - (current + sz)),
       seq current sz)
      :: kfold_folds rest (current + sz) n_samples
  end.

Definition kfold_sizes (n_splits n_samples : nat) : list nat :=
  map (fun i => n_samples / n_splits + (if i <? n_samples mod n_splits then 1 else 0))
      (seq 0 n_splits).

Definition kfold_split (n_splits n_samples : nat) : res (list (list nat * list nat)) :=
  if n_samples <? n_splits then Raise ValueError
  else Ret (kfold_folds (kfold_sizes n_splits n_samples) 0 n_samples).

Section Selectors.

(** A feature vector (one frame) and a fitted [GaussianHMM]. *)
Context {Frame Model : Type}.

(** [(X, lengths)]: a flattened observation array with its lengths. *)
Definition XLen : Type := (list Frame * list nat)%type.

(** [GaussianHMM(n_components=n, covariance_type="diag", n_iter=1000,
    random_state=rs).fit(X, lengths)]; [None] when the fit raises. *)
Variable gaussian_fit : nat -> nat -> XLen -> option Model.
(** [model.score(X, lengths)]; [None] when scoring raises. *)
Variable model_score : Model -> XLen -> option R.
(** [model.n_features] *)
Variable n_features : Model -> nat.

Definition fit_res (rs n : nat) (xl : XLen) : res Model :=
  match gaussian_fit rs n xl with
  | Some m => Ret m
  | None => Raise TrainerError
  end.

Definition score_res (m : Model) (xl : XLen) : res R :=
  match model_score m xl with
  | Some v => Ret v
  | None => Raise TrainerError
  end.

(** Modelled from the spec: [combine_sequences] of asl_utils (the sequence
    combiner), which is not in the sources: the selected utterance
    sequences, flattened in order, with their lengths. *)
Definition combine_sequences (split_index_list : list nat)
    (sequences : list (list Frame)) : res XLen :=
  sequences_fold <- map_res (py_index sequences) split_index_list ;;
  Ret (List.concat sequences_fold, map (@List.length Frame) sequences_fold).

(** The fields of a [ModelSelector] object. *)
Record ModelSelector : Type := {
  words : list (string * list (list Frame));
  hwords : list (string * XLen);
  sequences : list (list Frame);
  X_lengths : XLen;
  this_word : string;
  n_constant : nat;
  min_n_components : nat;
  max_n_components : nat;
  random_state : nat;
  verbose : bool
}.

(** Python dictionary lookup [d[k]]. *)
Fixpoint dict_get {A : Type} (d : list (string * A)) (k : string) : option A :=
  match d with
  | [] => None
  | (k', v) :: d' => if String.eqb k' k then Some v else dict_get d' k
  end.

(** [ModelSelector.__init__]: a missing word raises ([KeyError]). *)
Definition ModelSelector_init (all_word_sequences : list (string * list (list Frame)))
    (all_word_Xlengths : list (string * XLen)) (w : string)
    (nc minn maxn rs : nat) (vb : bool) : option ModelSelector :=
  match dict_get all_word_sequences w, dict_get all_word_Xlengths w with
  | Some sq, Some xl =>
      Some {| words := all_word_sequences; hwords := all_word_Xlengths;
              sequences := sq; X_lengths := xl; this_word := w;
              n_constant := nc; min_n_components := minn;
              max_n_components := maxn; random_state := rs; verbose := vb |}
  | _, _ => None
  end.

(** [self.X, self.lengths = xl] *)
Definition set_X_lengths (s : ModelSelector) (xl : XLen) : ModelSelector :=
  {| words := words s; hwords := hwords s; sequences := sequences s;
     X_lengths := xl; this_word := this_word s; n_constant := n_constant s;
     min_n_components := min_n_components s;
     max_n_components := max_n_components s;
     random_state := random_state s; verbose := verbose s |}.

(** [ModelSelector.base_model]: the bare [except] turns every failure into
    [None]. *)
Definition base_model (s : ModelSelector) (num_states : nat) : option Model :=
  catch_none (fit_res (random_state s) num_states (X_lengths s)).

(** [SelectorConstant.select] *)
Definition SelectorConstant_select (s : ModelSelector) : option Model :=
  base_model s (n_constant s).

(** ** [SelectorBIC] *)

(** [SelectorBIC.get_model_score]: [model] is [None] when [base_model]
    failed, and [None.score] raises. *)
Definition get_model_score (s : ModelSelector) (n : nat) : res R :=
  xl <- combine_sequences (seq 0 (List.length (sequences s))) (sequences s) ;;
  match base_model s n with
  | None => Raise AttributeError
  | Some model =>
      L <- score_res model xl ;;
      lg <- py_log (INR (List.length (sequences s))) ;;
      Ret (-2 * L + (INR n ^ 2 + 2 * INR n * INR (n_features model) - 1) * lg)%R
  end.

(** The [for] loop of [SelectorBIC.select], inside its [try].  It threads
    the object (whose [X, lengths] it reassigns), [best_score_so_far] and
    the local [model] ([None] while unbound).  An exception leaves the loop
    with the object as it is at that point. *)
Fixpoint bic_loop (s : ModelSelector) (ns : list nat) (best_score_so_far : ereal)
    (model : option (option Model)) : ModelSelector * res (option (option Model)) :=
  match ns with
  | [] => (s, Ret model)
  | n_components :: ns' =>
      match get_model_score s n_components with
      | Raise e => (s, Raise e)
      | Ret model_score =>
          if ereal_lt (Fin model_score) best_score_so_far then
            match combine_sequences (seq 0 (List.length (sequences s))) (sequences s) with
            | Raise e => (s, Raise e)
            | Ret xl =>
                let s' := set_X_lengths s xl in
                bic_loop s' ns' (Fin model_score) (Some (base_model s' n_components))
            end
          else bic_loop s ns' best_score_so_far model
      end
  end.

(** [SelectorBIC.select]: [return model] with [model] unbound raises
    [UnboundLocalError]; [except Exception] falls back to
    [self.base_model(self.n_constant)] on the object as the loop left it. *)
Definition SelectorBIC_select (s : ModelSelector) : option Model :=
  let '(s', r) := bic_loop s (py_range_incl (min_n_components s) (max_n_components s))
                    PInf None in
  let ret := (model <- r ;;
              match model with
              | Some m => Ret m
              | None => Raise UnboundLocalError
              end) in
  match ret with
  | Ret m => m
  | Raise _ => base_model s' (n_constant s')
  end.

(** ** [SelectorDIC] *)

(** [sc += hmm_model.score(x, lengths)] for every other word, in the
    dictionary's order. *)
Fixpoint dic_other_scores (hmm_model : Model) (w : string)
    (d : list (string * XLen)) (sc : R) : res R :=
  match d with
  | [] => Ret sc
  | (word, xl) :: d' =>
      if negb (String.eqb word w) then
        v <- score_res hmm_model xl ;; dic_other_scores hmm_model w d' (sc + v)%R
      else dic_other_scores hmm_model w d' sc
  end.

(** The body of the [try] in [SelectorDIC.select] for one [nc]: the DIC
    value and the fitted model. *)
Definition dic_candidate (s : ModelSelector) (nc : nat) : res (R * Model) :=
  hmm_model <- fit_res (random_state s) nc (X_lengths s) ;;
  logL <- score_res hmm_model (X_lengths s) ;;
  sc <- dic_other_scores hmm_model (this_word s) (hwords s) 0%R ;;
  mean_other_words <- py_div sc (INR (List.length (hwords s)) - 1)%R ;;
  Ret ((logL - mean_other_words)%R, hmm_model).

(** The loop of [SelectorDIC.select]; [except: pass] skips the candidate. *)
Fixpoint dic_loop (s : ModelSelector) (ns : list nat) (l : ereal)
    (model : option Model) : option Model :=
  match ns with
  | [] => model
  | nc :: ns' =>
      match dic_candidate s nc with
      | Raise _ => dic_loop s ns' l model
      | Ret (dic, hmm_model) =>
          if ereal_lt l (Fin dic) then dic_loop s ns' (Fin dic) (Some hmm_model)
          else dic_loop s ns' l model
      end
  end.

(** [SelectorDIC.select] *)
Definition SelectorDIC_select (s : ModelSelector) : option Model :=
  dic_loop s (py_range_incl (min_n_components s) (max_n_components s)) NInf None.

(** ** [SelectorCV] *)

(** The [GaussianHMM] object bound to [hmm_model]: fitted, or the object
    whose [fit] raised. *)
Inductive hmm_obj : Type :=
| Fitted (m : Model)
| Unfitted (n_components : nat).

(** [n_split = 2 if len(self.sequences) < 3 else 3] *)
Definition cv_n_split (s : ModelSelector) : nat :=
  if List.length (sequences s) <? 3 then 2 else 3.

(** The fold loop of [SelectorCV.avg_score].  [combine_sequences] runs
    outside the [try]; inside it [hmm_model] is rebound to the new object
    before [fit] is called, and a score is appended only when both [fit]
    and [score] return. *)
Fixpoint cv_fold_loop (s : ModelSelector) (n_comp : nat)
    (splits : list (list nat * list nat)) (scores : list R)
    (hmm_model : option hmm_obj) : res (list R * option hmm_obj) :=
  match splits with
  | [] => Ret (scores, hmm_model)
  | (cv_train_idx, cv_test_idx) :: rest =>
      train <- combine_sequences cv_train_idx (sequences s) ;;
      test <- combine_sequences cv_test_idx (sequences s) ;;
      match gaussian_fit (random_state s) n_comp train with
      | None => cv_fold_loop s n_comp rest scores (Some (Unfitted n_comp))
      | Some m =>
          match model_score m test with
          | None => cv_fold_loop s n_comp rest scores (Some (Fitted m))
          | Some v => cv_fold_loop s n_comp rest (scores ++ [v]) (Some (Fitted m))
          end
      end
  end.

(** [avg = np.mean(scores) if len(scores) else -math.inf] *)
Definition cv_average (scores : list R) : ereal :=
  match scores with
  | [] => NInf
  | _ => Fin (np_mean scores)
  end.

(** [SelectorCV.avg_score] *)
Definition avg_score (s : ModelSelector) (n_comp : nat) : res (ereal * option hmm_obj) :=
  splits <- kfold_split (cv_n_split s) (List.length (sequences s)) ;;
  r <- cv_fold_loop s n_comp splits [] None ;;
  Ret (cv_average (fst r), snd r).

(** The loop of [SelectorCV.select]; nothing catches [avg_score]'s
    exceptions. *)
Fixpoint cv_select_loop (s : ModelSelector) (ns : list nat) (lowest_score : ereal)
    (model : option hmm_obj) : res (option hmm_obj) :=
  match ns with
  | [] => Ret model
  | n_comp :: ns' =>
      r <- avg_score s n_comp ;;
      if ereal_lt lowest_score (fst r) then cv_select_loop s ns' (fst r) (snd r)
      else cv_select_loop s ns' lowest_score model
  end.

(** [SelectorCV.select] *)
Definition SelectorCV_select (s : ModelSelector) : res (option hmm_obj) :=
  cv_select_loop s (py_range_incl (min_n_components s) (max_n_components s)) NInf None.

(** ** Vocabulary of the statements *)

(** The data invariant of the spec: a word's flat entry is the combination
    of its utterance sequences. *)
Definition consistent (s : ModelSelector) : Prop :=
  X_lengths s = (List.concat (sequences s), map (@List.length Frame) (sequences s)).

(** The entries of the flat index that [SelectorDIC] scores as other
    words: those whose key differs from [this_word]. *)
Definition dic_others (s : ModelSelector) : list (string * XLen) :=
  filter (fun p => negb (String.eqb (fst p) (this_word s))) (hwords s).

(** The scores one fold adds to [scores] in [SelectorCV.avg_score]: the
    held-out log-likelihood when the fit and the scoring both return,
    nothing otherwise. *)
Definition cv_fold_contribution (s : ModelSelector) (n_comp : nat)
    (fold : list nat * list nat) : list R :=
  match combine_sequences (fst fold) (sequences s),
        combine_sequences (snd fold) (sequences s) with
  | Ret train, Ret test =>
      match gaussian_fit (random_state s) n_comp train with
      | Some m => match model_score m test with Some v => [v] | None => [] end
      | None => []
      end
  | _, _ => []
  end.

End Selectors.

(** ** Concrete trainers and selectors used by the witnesses and
    counterexamples.  Frames and fitted models are numbers; a fitted model
    is identified with its state count. *)

(** A trainer that fails for 2 states and fits otherwise. *)
Definition toy_fit_no2 (rs n : nat) (xl : list nat * list nat) : option nat :=
  if n =? 2 then None else Some n.

(** A trainer that always fits. *)
Definition toy_fit_all (rs n : nat) (xl : list nat * list nat) : option nat := Some n.

(** A trainer that fails on the training data [[0]] and fits otherwise. *)
Definition toy_fit_not0 (rs n : nat) (xl : list nat * list nat) : option nat :=
  if list_eq_dec Nat.eq_dec (fst xl) [0] then None else Some n.

(** A model with [m] states scores [-(m + number of frames)]. *)
Definition toy_score (m : nat) (xl : list nat * list nat) : option R :=
  Some (- INR (m + List.length (fst xl)))%R.

Definition toy_n_features (m : nat) : nat := 1.

(** A model with [m] states scores [10 * min(m, 3)] per frame: the
    likelihood stops improving after 3 states. *)
Definition toy_score_cap (m : nat) (xl : list nat * list nat) : option R :=
  Some (10 * INR (Nat.min m 3) * INR (List.length (fst xl)))%R.

(** A word "A" with two one-frame utterances and range [lo, hi]. *)
Definition toy_selector (hw : list (string * (list nat * list nat))) (lo hi : nat)
  : ModelSelector :=
  {| words := [("A"%string, [[0]; [1]])]; hwords := hw;
     sequences := [[0]; [1]]; X_lengths := ([0; 1], [1; 1]);
     this_word := "A"%string; n_constant := 5;
     min_n_components := lo; max_n_components := hi;
     random_state := 14; verbose := false |}.

(** A word "A" with a single one-frame utterance. *)
Definition toy_selector1 : ModelSelector :=
  {| words := [("A"%string, [[0]])]; hwords := [("A"%string, ([0], [1]))];
     sequences := [[0]]; X_lengths := ([0], [1]);
     this_word := "A"%string; n_constant := 3;
     min_n_components := 2; max_n_components := 10;
     random_state := 14; verbose := false |}.

Definition toy_words : list (string * list (list nat)) := [("A"%string, [[0]; [1]])].

Definition toy_hwords_A : list (string * (list nat * list nat)) :=
  [("A"%string, ([0; 1], [1; 1]))].

Definition toy_hwords_AB : list (string * (list nat * list nat)) :=
  [("A"%string, ([0; 1], [1; 1])); ("B"%string, ([7], [1]))].

(** A word "A" without utterance sequences. *)
Definition toy_selector0 : @ModelSelector nat :=
  {| words := [("A"%string, [])]; hwords := [("A"%string, ([], []))];
     sequences := []; X_lengths := ([], []);
     this_word := "A"%string; n_constant := 3;
     min_n_components := 2; max_n_components := 4;
     random_state := 14; verbose := false |}.

(** A word "A" with a single utterance and an empty range [5, 4]. *)
Definition toy_selector1_empty : @ModelSelector nat :=
  {| words := [("A"%string, [[0]])]; hwords := [("A"%string, ([0], [1]))];
     sequences := [[0]]; X_lengths := ([0], [1]);
     this_word := "A"%string; n_constant := 3;
     min_n_components := 5; max_n_components := 4;
     random_state := 14; verbose := false |}.

(** * Proofs *)

Section Proofs.

Context {Frame Model : Type}.
Variable gaussian_fit : nat -> nat -> @XLen Frame -> option Model.
Variable model_score : Model -> @XLen Frame -> option R.
Variable n_features : Model -> nat.

Abbreviation gms := (get_model_score gaussian_fit model_score n_features).
Abbreviation bmodel := (base_model gaussian_fit).

(** *** Helpers *)

Lemma map_res_index_all (l pre : list (list Frame)) :
  map_res (py_index (pre ++ l)) (seq (List.length pre) (List.length l)) = Ret l.
Proof.
  revert pre; induction l as [|a l IH]; intros pre; [reflexivity|].
  simpl. unfold py_index at 1.
  rewrite nth_error_app2, Nat.sub_diag by lia. simpl.
  specialize (IH (pre ++ [a])).
  rewrite <- app_assoc in IH. simpl in IH.
  rewrite length_app in IH. simpl in IH. rewrite Nat.add_1_r in IH.
  rewrite IH. reflexivity.
Qed.

(** [combine_sequences(range(len(seqs)), seqs)] combines every utterance. *)
Lemma combine_all (l : list (list Frame)) :
  combine_sequences (seq 0 (List.length l)) l
  = Ret (List.concat l, map (@List.length Frame) l).
Proof.
  unfold combine_sequences.
  pose proof (map_res_index_all l []) as H. simpl in H. rewrite H. reflexivity.
Qed.

Lemma in_range_incl (lo hi n : nat) :
  In n (py_range_incl lo hi) <-> (lo <= n <= hi)%nat.
Proof. unfold py_range_incl. rewrite in_seq. lia. Qed.

Lemma range_incl_cons (lo hi : nat) :
  (lo <= hi)%nat -> py_range_incl lo hi = lo :: py_range_incl (S lo) hi.
Proof.
  intros H. unfold py_range_incl.
  replace (S hi - lo)%nat with (S (S hi - S lo)) by lia. reflexivity.
Qed.

Lemma ereal_lt_fin (a b : R) : ereal_lt (Fin a) (Fin b) = true <-> (a < b)%R.
Proof. simpl. destruct (Rlt_dec a b); split; congruence || tauto. Qed.

Lemma ereal_lt_fin_false (a b : R) : ereal_lt (Fin a) (Fin b) = false -> (b <= a)%R.
Proof. simpl. destruct (Rlt_dec a b); [discriminate | intros _; lra]. Qed.

Lemma ereal_lt_fin_trans (a b : R) (e : ereal) :
  ereal_lt (Fin a) (Fin b) = true -> ereal_lt (Fin b) e = true ->
  ereal_lt (Fin a) e = true.
Proof.
  rewrite ereal_lt_fin. intros Hab. destruct e as [c| |]; simpl; try easy.
  destruct (Rlt_dec b c), (Rlt_dec a c); auto; lra.
Qed.

Lemma ereal_lt_fin_mixed (a b : R) (e : ereal) :
  ereal_lt (Fin a) e = true -> ereal_lt (Fin b) e = false -> (a <= b)%R.
Proof.
  destruct e as [c| |]; simpl; try easy.
  destruct (Rlt_dec a c), (Rlt_dec b c); try easy; lra.
Qed.

Lemma set_X_lengths_consistent (s : @ModelSelector Frame) :
  consistent s ->
  set_X_lengths s (List.concat (sequences s), map (@List.length Frame) (sequences s)) = s.
Proof. destruct s; unfold consistent; simpl; intros ->; reflexivity. Qed.

(** On consistent data, a failing candidate ends the BIC loop with an
    exception, the object unchanged. *)
Lemma bic_loop_raise (s : ModelSelector) :
  consistent s ->
  forall ns best model,
  (exists n e, In n ns /\ gms s n = Raise e) ->
  exists e, bic_loop gaussian_fit model_score n_features s ns best model = (s, Raise e).
Proof.
  intros Hc ns. induction ns as [|a ns IH]; intros best model (n & e & Hin & He);
    [destruct Hin|].
  cbn [bic_loop]. destruct (gms s a) as [v|e'] eqn:Ha; [|eauto].
  destruct Hin as [<-|Hin]; [congruence|].
  destruct (ereal_lt (Fin v) best).
  - rewrite combine_all, set_X_lengths_consistent by exact Hc. apply IH. eauto.
  - apply IH. eauto.
Qed.

Lemma ereal_lt_fin_mixed_strict (a b : R) (e : ereal) :
  ereal_lt (Fin a) e = true -> ereal_lt (Fin b) e = false -> (a < b)%R.
Proof.
  destruct e as [c| |]; simpl; try easy.
  destruct (Rlt_dec a c), (Rlt_dec b c); try easy; lra.
Qed.

(** On consistent data where every candidate of [lo, lo + len) scores, the
    BIC loop keeps the first candidate of lowest score below [best], or
    keeps [model]. *)
Lemma bic_loop_first_min (s : ModelSelector) :
  consistent s ->
  forall len lo best model,
  (forall n, (lo <= n < lo + len)%nat -> exists v, gms s n = Ret v) ->
  exists model',
    bic_loop gaussian_fit model_score n_features s (seq lo len) best model = (s, Ret model') /\
    ((model' = model /\
      forall n v, (lo <= n < lo + len)%nat -> gms s n = Ret v -> ereal_lt (Fin v) best = false)
     \/ (exists n v, (lo <= n < lo + len)%nat /\ gms s n = Ret v /\
         ereal_lt (Fin v) best = true /\ model' = Some (bmodel s n) /\
         forall n' v', (lo <= n' < lo + len)%nat -> gms s n' = Ret v' ->
           (v <= v')%R /\ ((n' < n)%nat -> (v < v')%R))).
Proof.
  intros Hc len. induction len as [|len IH]; intros lo best model Hok.
  - exists model. split; [reflexivity|]. left. split; [reflexivity|]. intros n v Hn. lia.
  - destruct (Hok lo ltac:(lia)) as [va Ha].
    assert (Hok' : forall n, (S lo <= n < S lo + len)%nat -> exists v, gms s n = Ret v)
      by (intros n Hn; apply Hok; lia).
    cbn [seq bic_loop]. rewrite Ha.
    destruct (ereal_lt (Fin va) best) eqn:Hlt.
    + rewrite combine_all, set_X_lengths_consistent by exact Hc.
      destruct (IH (S lo) (Fin va) (Some (bmodel s lo)) Hok') as (m' & Hrun & Hcase).
      exists m'. split; [exact Hrun|]. right.
      destruct Hcase as [(-> & Hall) | (n2 & v2 & Hin2 & H2 & Hlt2 & -> & Hmin2)].
      * exists lo, va.
        split; [lia|]. split; [exact Ha|]. split; [exact Hlt|]. split; [reflexivity|].
        intros n' v' Hn' Hv'.
        destruct (Nat.eq_dec n' lo) as [->|Hne].
        -- rewrite Ha in Hv'. injection Hv' as <-. split; [lra|lia].
        -- split; [|lia]. apply ereal_lt_fin_false. apply (Hall n' v'); [lia|exact Hv'].
      * exists n2, v2.
        split; [lia|]. split; [exact H2|].
        split; [eapply ereal_lt_fin_trans; eauto|]. split; [reflexivity|].
        intros n' v' Hn' Hv'.
        destruct (Nat.eq_dec n' lo) as [->|Hne].
        -- rewrite Ha in Hv'. injection Hv' as <-.
           apply ereal_lt_fin in Hlt2. split; lra.
        -- apply (Hmin2 n' v'); [lia|exact Hv'].
    + destruct (IH (S lo) best model Hok') as (m' & Hrun & Hcase).
      exists m'. split; [exact Hrun|].
      destruct Hcase as [(-> & Hall) | (n2 & v2 & Hin2 & H2 & Hlt2 & -> & Hmin2)].
      * left. split; [reflexivity|].
        intros n v Hn Hv.
        destruct (Nat.eq_dec n lo) as [->|Hne].
        -- rewrite Ha in Hv. injection Hv as <-. exact Hlt.
        -- apply (Hall n v); [lia|exact Hv].
      * right. exists n2, v2.
        split; [lia|]. split; [exact H2|]. split; [exact Hlt2|]. split; [reflexivity|].
        intros n' v' Hn' Hv'.
        destruct (Nat.eq_dec n' lo) as [->|Hne].
        -- rewrite Ha in Hv'. injection Hv' as <-.
           pose proof (ereal_lt_fin_mixed_strict v2 va best Hlt2 Hlt). split; lra.
        -- apply (Hmin2 n' v'); [lia|exact Hv'].
Qed.

Lemma gms_ret_fitted (s : ModelSelector) (n : nat) (v : R) :
  gms s n = Ret v -> exists m, bmodel s n = Some m.
Proof.
  unfold get_model_score. rewrite combine_all. cbn [bind].
  destruct (bmodel s n) as [m|]; [eauto | discriminate].
Qed.

(** *** SelectorBIC *)

(** C3: for a candidate [n] whose fit succeeds and whose fitted model
    scores the word's combined sequences with log-likelihood [L],
    [SelectorBIC.get_model_score] is exactly
    -2 L + (n^2 + 2 n D - 1) ln N, where D is the model's feature count
    and N the number of utterance sequences of the word. *)
Theorem bic_score_closed_form (s : ModelSelector) (n : nat) (m : Model) (L : R) :
  bmodel s n = Some m ->
  model_score m (List.concat (sequences s), map (@List.length Frame) (sequences s))
    = Some L ->
  (0 < List.length (sequences s))%nat ->
  gms s n = Ret (-2 * L + (INR n ^ 2 + 2 * INR n * INR (n_features m) - 1)
                 * ln (INR (List.length (sequences s))))%R.
Proof.
  intros Hm HL HN. unfold get_model_score. rewrite combine_all. cbn [bind].
  rewrite Hm. unfold score_res. rewrite HL. cbn [bind].
  unfold py_log. destruct (Rlt_dec 0 _) as [_|Hn]; [reflexivity|].
  exfalso. apply Hn. apply lt_0_INR. exact HN.
Qed.

(** C9: when [min_n_components > max_n_components] the candidate range is
    empty and [SelectorBIC.select] returns the result of
    [SelectorConstant.select] on the same object. *)
Theorem bic_empty_range_is_constant (s : ModelSelector) :
  (max_n_components s < min_n_components s)%nat ->
  SelectorBIC_select gaussian_fit model_score n_features s
  = SelectorConstant_select gaussian_fit s.
Proof.
  intros H. unfold SelectorBIC_select, py_range_incl.
  replace (S (max_n_components s) - min_n_components s)%nat with 0%nat by lia.
  reflexivity.
Qed.

(** C1 (as amended): per-candidate failures are not absorbed one by one.
    On consistent data, as soon as some candidate of the range fails
    (its fit or its BIC computation raises), the whole search is abandoned
    and [SelectorBIC.select] returns the Constant strategy's result, even
    when other candidates would succeed. *)
Theorem bic_failure_aborts_to_constant (s : ModelSelector) :
  consistent s ->
  (exists n e, (min_n_components s <= n <= max_n_components s)%nat /\ gms s n = Raise e) ->
  SelectorBIC_select gaussian_fit model_score n_features s
  = SelectorConstant_select gaussian_fit s.
Proof.
  intros Hc (n & e & Hn & He). unfold SelectorBIC_select.
  destruct (bic_loop_raise s Hc
              (py_range_incl (min_n_components s) (max_n_components s)) PInf None)
    as [e' ->].
  { exists n, e. split; [apply in_range_incl; exact Hn | exact He]. }
  reflexivity.
Qed.

(** C5 (as amended): on consistent data with a non-empty range,
    - when every candidate succeeds, [SelectorBIC.select] returns the model
      fitted with the first state count [n] of lowest BIC over the range
      (every other candidate scores at least as high, every smaller one
      strictly higher), that BIC being the one recomputed from the returned
      model;
    - when some candidate fails, the search is abandoned and the result is
      the Constant strategy's. *)
Theorem bic_selects_lowest (s : ModelSelector) :
  consistent s ->
  (min_n_components s <= max_n_components s)%nat ->
  ((forall n, (min_n_components s <= n <= max_n_components s)%nat ->
              exists v, gms s n = Ret v) ->
   exists n v m,
     (min_n_components s <= n <= max_n_components s)%nat /\
     gms s n = Ret v /\ bmodel s n = Some m /\
     SelectorBIC_select gaussian_fit model_score n_features s = Some m /\
     forall n' v', (min_n_components s <= n' <= max_n_components s)%nat ->
                   gms s n' = Ret v' -> (v <= v')%R /\ ((n' < n)%nat -> (v < v')%R))
  /\
  ((exists n e, (min_n_components s <= n <= max_n_components s)%nat /\ gms s n = Raise e) ->
   SelectorBIC_select gaussian_fit model_score n_features s
   = SelectorConstant_select gaussian_fit s).
Proof.
  intros Hc Hle. split.
  - intros Hok. unfold py_range_incl in *.
    destruct (bic_loop_first_min s Hc (S (max_n_components s) - min_n_components s)
                (min_n_components s) PInf None)
      as (m' & Hrun & Hcase).
    { intros n Hn. apply Hok. lia. }
    destruct Hcase as [(_ & Hall) | (n & v & Hin & Hv & _ & -> & Hmin)].
    + exfalso.
      destruct (Hok (min_n_components s) ltac:(lia)) as [v Hv].
      specialize (Hall (min_n_components s) v ltac:(lia) Hv). discriminate.
    + destruct (gms_ret_fitted s n v Hv) as [m Hm].
      exists n, v, m.
      split; [lia|]. split; [exact Hv|]. split; [exact Hm|].
      split.
      * unfold SelectorBIC_select, py_range_incl. rewrite Hrun. simpl. exact Hm.
      * intros n' v' Hn' Hv'. apply (Hmin n' v'); [lia|exact Hv'].
  - intros (n & e & Hn & He). unfold SelectorBIC_select.
    destruct (bic_loop_raise s Hc
                (py_range_incl (min_n_components s) (max_n_components s)) PInf None)
      as [e' ->].
    { exists n, e. split; [apply in_range_incl; exact Hn | exact He]. }
    reflexivity.
Qed.

(** *** SelectorDIC *)

Lemma init_fields (aws : list (string * list (list Frame))) hw w nc lo hi rs vb
    (s : ModelSelector) :
  ModelSelector_init aws hw w nc lo hi rs vb = Some s ->
  hwords s = hw /\ this_word s = w /\ random_state s = rs /\
  dict_get hw w = Some (X_lengths s).
Proof.
  unfold ModelSelector_init.
  destruct (dict_get aws w), (dict_get hw w) eqn:E; try discriminate.
  intros H. injection H as <-. simpl. auto.
Qed.

Lemma dict_get_in {A : Type} (d : list (string * A)) (k : string) (v : A) :
  dict_get d k = Some v -> In k (map fst d).
Proof.
  induction d as [|[k' v'] d IH]; simpl; [discriminate|].
  destruct (String.eqb_spec k' k); auto.
Qed.

Lemma dic_other_scores_sum (m : Model) (w : string) :
  forall (d : list (string * XLen)) (sc : R) (vs : list R),
  map (fun p => model_score m (snd p))
      (filter (fun p => negb (String.eqb (fst p) w)) d) = map Some vs ->
  dic_other_scores model_score m w d sc = Ret (sc + fold_right Rplus 0 vs)%R.
Proof.
  induction d as [|[word xl] d IH]; intros sc vs Hvs.
  - destruct vs; [|discriminate]. simpl. f_equal. ring.
  - simpl in Hvs |- *. destruct (negb (String.eqb word w)).
    + destruct vs as [|v vs]; [discriminate|]. simpl in Hvs.
      injection Hvs as Hv Hvs. unfold score_res. rewrite Hv. cbn [bind].
      rewrite (IH _ _ Hvs). simpl. f_equal. ring.
    + apply IH. exact Hvs.
Qed.

Lemma filter_all_true {A : Type} (f : A -> bool) (l : list A) :
  (forall a, In a l -> f a = true) -> filter f l = l.
Proof.
  induction l as [|a l IH]; intros H; simpl; [reflexivity|].
  rewrite (H a (or_introl eq_refl)), IH; auto with datatypes.
Qed.

(** In a dictionary holding [w] once, all keys but [w] number one less. *)
Lemma others_length {A : Type} (w : string) :
  forall d : list (string * A),
  NoDup (map fst d) -> In w (map fst d) ->
  List.length (filter (fun p => negb (String.eqb (fst p) w)) d) = (List.length d - 1)%nat.
Proof.
  induction d as [|[k x] d IH]; intros Hnd Hin; simpl in *; [destruct Hin|].
  inversion Hnd as [|? ? Hnot Hnd']; subst.
  destruct (String.eqb_spec k w) as [->|Hkw]; simpl.
  - rewrite filter_all_true; [lia|].
    intros [k' x'] Hp. simpl. destruct (String.eqb_spec k' w) as [->|]; [|reflexivity].
    exfalso. apply Hnot. change w with (fst (w, x')). apply in_map. exact Hp.
  - destruct Hin as [->|Hin]; [congruence|].
    rewrite IH by assumption.
    assert (List.length (map fst d) <> 0%nat) by (destruct (map fst d); simpl in *; [easy|lia]).
    rewrite length_map in H. lia.
Qed.

(** The general form of the DIC value of one candidate. *)
Lemma dic_candidate_mean (s : ModelSelector) (nc : nat) (m : Model) (logL : R)
    (vs : list R) :
  NoDup (map fst (hwords s)) -> In (this_word s) (map fst (hwords s)) ->
  gaussian_fit (random_state s) nc (X_lengths s) = Some m ->
  model_score m (X_lengths s) = Some logL ->
  map (fun p => model_score m (snd p)) (dic_others s) = map Some vs ->
  vs <> [] ->
  List.length vs = (List.length (hwords s) - 1)%nat /\
  dic_candidate gaussian_fit model_score s nc
    = Ret ((logL - fold_right Rplus 0 vs / INR (List.length vs))%R, m).
Proof.
  intros Hnd Hin Hfit Hsc Hvs Hne.
  assert (Hlen : List.length vs = (List.length (hwords s) - 1)%nat).
  { rewrite <- (others_length (this_word s) (hwords s) Hnd Hin).
    fold (dic_others s). rewrite <- (length_map Some vs), <- Hvs, length_map.
    reflexivity. }
  split; [exact Hlen|].
  unfold dic_candidate, fit_res. rewrite Hfit. cbn [bind].
  unfold score_res at 1. rewrite Hsc. cbn [bind].
  rewrite (dic_other_scores_sum m (this_word s) (hwords s) 0 vs Hvs). cbn [bind].
  assert (Hd : (INR (List.length (hwords s)) - 1)%R = INR (List.length vs)).
  { rewrite Hlen, minus_INR; [simpl; reflexivity|].
    destruct (hwords s); simpl in Hin; [destruct Hin|simpl; lia]. }
  unfold py_div. rewrite Hd.
  destruct (Req_EM_T (INR (List.length vs)) 0) as [H0|_].
  - exfalso. destruct vs as [|v vs]; [congruence|]. cbn [List.length] in H0.
    rewrite S_INR in H0. pose proof (pos_INR (List.length vs)). lra.
  - cbn [bind]. rewrite Rplus_0_l. reflexivity.
Qed.

Lemma dic_loop_all_raise (s : ModelSelector) :
  (forall nc, exists e, dic_candidate gaussian_fit model_score s nc = Raise e) ->
  forall ns l model, dic_loop gaussian_fit model_score s ns l model = model.
Proof.
  intros Hall ns. induction ns as [|nc ns IH]; intros l model; [reflexivity|].
  simpl. destruct (Hall nc) as [e ->]. apply IH.
Qed.

(** C4: for a candidate [n] whose fit succeeds, [SelectorDIC] computes
    DIC(n) as the log-likelihood of the word's own training data minus the
    mean of the log-likelihoods the same model gives to the full flattened
    data of every other word of the flat index (there are
    [len(hwords) - 1] of them); in particular, with exactly two words A and
    B in the flat index, DIC(n) for A is scoreA(n) - scoreB(n). *)
Theorem dic_own_minus_mean_of_others :
  (forall (aws : list (string * list (list Frame))) (hw : list (string * XLen))
          (w : string) (nc lo hi rs : nat) (vb : bool) (s : ModelSelector)
          (n : nat) (m : Model) (logL : R) (vs : list R),
     NoDup (map fst hw) ->
     ModelSelector_init aws hw w nc lo hi rs vb = Some s ->
     gaussian_fit rs n (X_lengths s) = Some m ->
     model_score m (X_lengths s) = Some logL ->
     map (fun p => model_score m (snd p)) (dic_others s) = map Some vs ->
     vs <> [] ->
     List.length vs = (List.length hw - 1)%nat /\
     dic_candidate gaussian_fit model_score s n
       = Ret ((logL - fold_right Rplus 0 vs / INR (List.length vs))%R, m)) /\
  (forall (aws : list (string * list (list Frame))) (hw : list (string * XLen))
          (wA wB : string) (xB : XLen) (nc lo hi rs : nat) (vb : bool)
          (s : ModelSelector) (n : nat) (m : Model) (scoreA scoreB : R),
     NoDup (map fst hw) -> List.length hw = 2%nat ->
     ModelSelector_init aws hw wA nc lo hi rs vb = Some s ->
     In (wB, xB) hw -> wB <> wA ->
     gaussian_fit rs n (X_lengths s) = Some m ->
     model_score m (X_lengths s) = Some scoreA ->
     model_score m xB = Some scoreB ->
     dic_candidate gaussian_fit model_score s n = Ret ((scoreA - scoreB)%R, m)).
Proof.
  split.
  - intros aws hw w nc lo hi rs vb s n m logL vs Hnd Hinit Hfit Hsc Hvs Hne.
    destruct (init_fields aws hw w nc lo hi rs vb s Hinit) as (Hh & Hw & Hrs & Hget).
    subst hw w rs.
    apply dic_candidate_mean; try assumption.
    eapply dict_get_in; exact Hget.
  - intros aws hw wA wB xB nc lo hi rs vb s n m scoreA scoreB
      Hnd H2 Hinit HinB HBA Hfit HscA HscB.
    destruct (init_fields aws hw wA nc lo hi rs vb s Hinit) as (Hh & Hw & Hrs & Hget).
    subst hw wA rs.
    assert (Hin : In (this_word s) (map fst (hwords s))) by (eapply dict_get_in; exact Hget).
    assert (Hothers : dic_others s = [(wB, xB)]).
    { pose proof (others_length (this_word s) (hwords s) Hnd Hin) as Hl.
      fold (dic_others s) in Hl. rewrite H2 in Hl. simpl in Hl.
      assert (HB : In (wB, xB) (dic_others s)).
      { unfold dic_others. apply filter_In. split; [exact HinB|].
        simpl. destruct (String.eqb_spec wB (this_word s)); [congruence|reflexivity]. }
      destruct (dic_others s) as [|p [|q l]]; simpl in Hl; try discriminate.
      destruct HB as [<-|[]]. reflexivity. }
    destruct (dic_candidate_mean s n m scoreA [scoreB] Hnd Hin Hfit HscA)
      as [_ Hres].
    + rewrite Hothers. simpl. rewrite HscB. reflexivity.
    + discriminate.
    + rewrite Hres. f_equal. f_equal. simpl. field.
Qed.

(** C8: when the flat index holds only the target word, the mean over the
    other words divides by zero for every candidate, every candidate is
    skipped, and [SelectorDIC.select] returns [None] without raising. *)
Theorem dic_single_word_none (s : ModelSelector) (xl : XLen) :
  hwords s = [(this_word s, xl)] ->
  SelectorDIC_select gaussian_fit model_score s = None.
Proof.
  intros Hw. unfold SelectorDIC_select. apply dic_loop_all_raise.
  intros nc. unfold dic_candidate, fit_res.
  destruct (gaussian_fit _ nc _) as [m|]; cbn [bind]; [|eauto].
  unfold score_res at 1.
  destruct (model_score m (X_lengths s)) as [logL|]; cbn [bind]; [|eauto].
  rewrite Hw. cbn [dic_other_scores fst]. rewrite String.eqb_refl. cbn [negb bind].
  unfold py_div.
  replace (INR (List.length [(this_word s, xl)]) - 1)%R with 0%R by (simpl; ring).
  destruct (Req_dec_T _ _) as [H0|H0].
  - eexists. reflexivity.
  - exfalso. apply H0. reflexivity.
Qed.

(** *** KFold *)

Lemma kfold_folds_length (sizes : list nat) :
  forall c n, List.length (kfold_folds sizes c n) = List.length sizes.
Proof. induction sizes as [|sz sizes IH]; intros c n; simpl; auto. Qed.

Lemma kfold_folds_tests (sizes : list nat) :
  forall c n, List.concat (map snd (kfold_folds sizes c n)) = seq c (list_sum sizes).
Proof.
  induction sizes as [|sz sizes IH]; intros c n; simpl; [reflexivity|].
  rewrite IH, seq_app. reflexivity.
Qed.

Lemma kfold_folds_in (sizes : list nat) :
  forall c n f, In f (kfold_folds sizes c n) ->
  exists c' sz, In sz sizes /\ snd f = seq c' sz.
Proof.
  induction sizes as [|sz sizes IH]; intros c n f Hf; simpl in Hf; [destruct Hf|].
  destruct Hf as [<-|Hf].
  - exists c, sz. simpl. auto.
  - destruct (IH _ _ _ Hf) as (c' & sz' & Hin & Hs). exists c', sz'. simpl. auto.
Qed.

Lemma sizes_sum (q r : nat) :
  forall k, list_sum (map (fun i => q + (if i <? r then 1 else 0)) (seq 0 k))
            = (k * q + Nat.min k r)%nat.
Proof.
  induction k as [|k IH]; [reflexivity|].
  rewrite seq_S, map_app, list_sum_app, IH. cbn [map list_sum fold_right].
  rewrite Nat.add_0_l. destruct (Nat.ltb_spec k r); lia.
Qed.

Lemma kfold_sizes_sum (k n : nat) :
  (0 < k)%nat -> list_sum (kfold_sizes k n) = n.
Proof.
  intros Hk. unfold kfold_sizes. rewrite sizes_sum.
  pose proof (Nat.mod_upper_bound n k ltac:(lia)).
  pose proof (Nat.div_mod_eq n k). lia.
Qed.

Lemma kfold_sizes_pos (k n : nat) :
  (0 < k <= n)%nat -> forall sz, In sz (kfold_sizes k n) -> (1 <= sz)%nat.
Proof.
  intros Hk sz Hsz. unfold kfold_sizes in Hsz. apply in_map_iff in Hsz.
  destruct Hsz as (i & <- & _).
  assert (1 <= n / k)%nat by (apply Nat.div_le_lower_bound; lia). lia.
Qed.

(** *** SelectorCV *)

Lemma cv_fold_loop_scores (s : ModelSelector) (n_comp : nat) :
  forall splits scores hm r,
  cv_fold_loop gaussian_fit model_score s n_comp splits scores hm = Ret r ->
  fst r = scores ++ flat_map (cv_fold_contribution gaussian_fit model_score s n_comp) splits.
Proof.
  induction splits as [|[tr te] splits IH]; intros scores hm r Hrun.
  - simpl in Hrun. injection Hrun as <-. simpl. rewrite app_nil_r. reflexivity.
  - cbn [cv_fold_loop] in Hrun. cbn [flat_map]. unfold cv_fold_contribution at 1.
    cbn [fst snd].
    destruct (combine_sequences tr (sequences s)) as [xtr|]; [|discriminate].
    destruct (combine_sequences te (sequences s)) as [xte|]; [|discriminate].
    cbn [bind] in Hrun.
    destruct (gaussian_fit (random_state s) n_comp xtr) as [m|].
    + destruct (model_score m xte) as [v|].
      * rewrite (IH _ _ _ Hrun), <- app_assoc. reflexivity.
      * rewrite (IH _ _ _ Hrun). reflexivity.
    + rewrite (IH _ _ _ Hrun). reflexivity.
Qed.

Lemma avg_score_unfold (s : ModelSelector) (n_comp : nat) (a : ereal) (o : option hmm_obj) :
  avg_score gaussian_fit model_score s n_comp = Ret (a, o) ->
  exists splits,
    kfold_split (cv_n_split s) (List.length (sequences s)) = Ret splits /\
    a = cv_average (flat_map (cv_fold_contribution gaussian_fit model_score s n_comp) splits).
Proof.
  unfold avg_score.
  destruct (kfold_split _ _) as [splits|]; cbn [bind]; [|discriminate].
  destruct (cv_fold_loop gaussian_fit model_score s n_comp splits [] None) as [r|] eqn:E;
    cbn [bind]; [|discriminate].
  intros H. injection H as <- _. exists splits. split; [reflexivity|].
  rewrite (cv_fold_loop_scores s n_comp splits [] None r E). reflexivity.
Qed.

Lemma cv_average_cases (l : list R) : cv_average l = NInf \/ exists r, cv_average l = Fin r.
Proof. destruct l; simpl; eauto. Qed.

Lemma cv_select_loop_chosen (s : ModelSelector) :
  forall ns lowest model r,
  cv_select_loop gaussian_fit model_score s ns lowest model = Ret r ->
  r = model \/
  exists n a, In n ns /\ avg_score gaussian_fit model_score s n = Ret (Fin a, r).
Proof.
  induction ns as [|n ns IH]; intros lowest model r Hrun.
  - simpl in Hrun. injection Hrun as ->. auto.
  - cbn [cv_select_loop] in Hrun.
    destruct (avg_score gaussian_fit model_score s n) as [[sc hm]|] eqn:Ha;
      cbn [bind fst snd] in Hrun; [|discriminate].
    destruct (ereal_lt lowest sc) eqn:Hlt.
    + destruct (IH _ _ _ Hrun) as [->|(n' & a' & Hin & Ha')].
      * right. destruct (avg_score_unfold s n sc hm Ha) as (splits & _ & Hsc).
        destruct (cv_average_cases (flat_map (cv_fold_contribution gaussian_fit model_score s n) splits))
          as [Hn|(x & Hx)]; rewrite <- Hsc in Hn || rewrite <- Hsc in Hx.
        -- rewrite Hn in Hlt. destruct lowest; simpl in Hlt; discriminate Hlt.
        -- rewrite Hx in Ha. exists n, x. simpl. auto.
      * right. exists n', a'. simpl. auto.
    + destruct (IH _ _ _ Hrun) as [->|(n' & a' & Hin & Ha')]; [auto|].
      right. exists n', a'. simpl. auto.
Qed.

Lemma cv_select_loop_all_ninf (s : ModelSelector) :
  forall ns lowest model,
  (forall n, In n ns -> exists o, avg_score gaussian_fit model_score s n = Ret (NInf, o)) ->
  cv_select_loop gaussian_fit model_score s ns lowest model = Ret model.
Proof.
  induction ns as [|n ns IH]; intros lowest model Hall; [reflexivity|].
  cbn [cv_select_loop]. destruct (Hall n (or_introl eq_refl)) as [o ->].
  cbn [bind fst snd].
  replace (ereal_lt lowest NInf) with false by (destruct lowest; reflexivity).
  apply IH. intros n' Hn'. apply Hall. right. exact Hn'.
Qed.

(** C6 (as amended): [SelectorCV] uses k = 3 folds when the word has at
    least 3 utterance sequences and k = 2 otherwise, so 2 <= k <= 3.  When
    the word has at least 2 sequences, the split yields exactly k non-empty
    contiguous held-out folds that together cover the utterance indices
    in order; with fewer than 2 sequences the split raises [ValueError]
    and no partition is made. *)
Theorem cv_fold_count (s : @ModelSelector Frame) :
  (2 <= cv_n_split s <= 3)%nat /\
  (cv_n_split s = 3%nat <-> (3 <= List.length (sequences s))%nat) /\
  ((2 <= List.length (sequences s))%nat ->
   exists splits,
     kfold_split (cv_n_split s) (List.length (sequences s)) = Ret splits /\
     List.length splits = cv_n_split s /\
     List.concat (map snd splits) = seq 0 (List.length (sequences s)) /\
     (forall f, In f splits -> snd f <> [])) /\
  ((List.length (sequences s) < 2)%nat ->
   kfold_split (cv_n_split s) (List.length (sequences s)) = Raise ValueError).
Proof.
  unfold cv_n_split.
  set (N := List.length (sequences s)).
  set (k := if N <? 3 then 2%nat else 3%nat).
  assert (Hk : (k = 2 /\ N < 3 \/ k = 3 /\ 3 <= N)%nat)
    by (unfold k; destruct (Nat.ltb_spec N 3); lia).
  split; [lia|]. split; [lia|]. split.
  - intros HN. unfold kfold_split.
    replace (N <? k) with false by (symmetry; apply Nat.ltb_ge; lia).
    eexists. split; [reflexivity|].
    split; [rewrite kfold_folds_length; unfold kfold_sizes; rewrite length_map, length_seq; reflexivity|].
    split; [rewrite kfold_folds_tests, kfold_sizes_sum by lia; reflexivity|].
    intros f Hf. destruct (kfold_folds_in _ _ _ _ Hf) as (c & sz & Hsz & ->).
    pose proof (kfold_sizes_pos k N ltac:(lia) sz Hsz).
    destruct sz; [lia|]. discriminate.
  - intros HN. unfold kfold_split.
    replace (N <? k) with true by (symmetry; apply Nat.ltb_lt; lia). reflexivity.
Qed.

(** C7: in [SelectorCV], a fold whose fit or scoring fails adds nothing to
    the scores averaged for its candidate (it is left out, not counted as
    -inf), and a candidate all of whose folds fail averages -inf; the
    candidate [select] keeps is always one with a finite average, and when
    every candidate averages -inf, [select] returns [None]. *)
Theorem cv_failed_folds_excluded (s : ModelSelector) :
  (forall n a o,
     avg_score gaussian_fit model_score s n = Ret (a, o) ->
     exists splits,
       kfold_split (cv_n_split s) (List.length (sequences s)) = Ret splits /\
       a = cv_average (flat_map (cv_fold_contribution gaussian_fit model_score s n) splits) /\
       ((forall f, In f splits -> cv_fold_contribution gaussian_fit model_score s n f = []) ->
        a = NInf)) /\
  (forall r,
     SelectorCV_select gaussian_fit model_score s = Ret r ->
     r = None \/
     exists n a, (min_n_components s <= n <= max_n_components s)%nat /\
                 avg_score gaussian_fit model_score s n = Ret (Fin a, r)) /\
  ((forall n, (min_n_components s <= n <= max_n_components s)%nat ->
              exists o, avg_score gaussian_fit model_score s n = Ret (NInf, o)) ->
   SelectorCV_select gaussian_fit model_score s = Ret None).
Proof.
  split; [|split].
  - intros n a o Ha. destruct (avg_score_unfold s n a o Ha) as (splits & Hsp & ->).
    exists splits. split; [exact Hsp|]. split; [reflexivity|].
    intros Hall.
    assert (Hnil : flat_map (cv_fold_contribution gaussian_fit model_score s n) splits = []).
    { clear Hsp Ha. revert Hall. induction splits as [|f splits IHs]; intros Hall; [reflexivity|].
      cbn [flat_map]. rewrite (Hall f (or_introl eq_refl)). cbn [app].
      apply IHs. intros f' Hf'. apply Hall. right. exact Hf'. }
    rewrite Hnil. reflexivity.
  - intros r Hr. destruct (cv_select_loop_chosen s _ _ _ r Hr) as [->|(n & a & Hin & Ha)];
      [left; reflexivity|].
    right. exists n, a. split; [apply in_range_incl; exact Hin|exact Ha].
  - intros Hall. apply cv_select_loop_all_ninf.
    intros n Hn. apply Hall, in_range_incl, Hn.
Qed.

(** C2 (code defect): for a word with fewer than two utterance sequences
    and a non-empty candidate range, [SelectorCV.select] propagates the
    [ValueError] of [KFold(n_splits=2).split], which no [try] surrounds. *)
Theorem cv_select_raises_on_short_word (s : ModelSelector) :
  (List.length (sequences s) < 2)%nat ->
  (min_n_components s <= max_n_components s)%nat ->
  SelectorCV_select gaussian_fit model_score s = Raise ValueError.
Proof.
  intros HN Hle. unfold SelectorCV_select. rewrite range_incl_cons by exact Hle.
  cbn [cv_select_loop]. unfold avg_score, cv_n_split, kfold_split.
  replace (List.length (sequences s) <? 3) with true by (symmetry; apply Nat.ltb_lt; lia).
  replace (List.length (sequences s) <? 2) with true by (symmetry; apply Nat.ltb_lt; lia).
  reflexivity.
Qed.

End Proofs.

(** ** Concrete instances: witnesses, counterexamples, defects *)

Lemma toy_gms_fits (fit : nat -> nat -> list nat * list nat -> option nat)
    (hw : list (string * (list nat * list nat))) (lo hi n : nat) :
  fit 14 n ([0; 1], [1; 1]) = Some n ->
  exists v, get_model_score fit toy_score toy_n_features (toy_selector hw lo hi) n = Ret v.
Proof.
  intros Hfit. eexists. unfold get_model_score, base_model, fit_res. cbn [X_lengths toy_selector random_state].
  rewrite Hfit. unfold py_log. cbn -[Rlt_dec INR ln].
  destruct (Rlt_dec _ _) as [_|H]; [reflexivity|].
  exfalso. apply H. simpl. lra.
Qed.

Lemma toy_gms_fits_cap (hw : list (string * (list nat * list nat))) (lo hi n : nat) :
  exists v, get_model_score toy_fit_all toy_score_cap toy_n_features (toy_selector hw lo hi) n
            = Ret v.
Proof.
  eexists. unfold get_model_score, base_model, fit_res. cbn [X_lengths toy_selector random_state].
  unfold py_log. cbn -[Rlt_dec INR ln].
  destruct (Rlt_dec _ _) as [_|H]; [reflexivity|].
  exfalso. apply H. simpl. lra.
Qed.

Lemma ln2_bounds : (0 < ln 2 < 1)%R.
Proof.
  split.
  - rewrite <- ln_1. apply ln_increasing; lra.
  - rewrite <- (ln_exp 1). apply ln_increasing; [lra|].
    pose proof (exp_ineq1 1 ltac:(lra)). lra.
Qed.

Lemma py_div_by_one (x : R) : py_div x (INR 2 - 1) = Ret x.
Proof.
  unfold py_div. destruct (Req_EM_T _ _) as [H|_]; [exfalso; simpl in H; lra|].
  f_equal. simpl. field.
Qed.

Lemma np_mean_pair (x : R) : np_mean [x; x] = x.
Proof. unfold np_mean. simpl. field. Qed.

(** With the capped scorer, BIC over [2, 4] on the two-utterance word is
    lowest at 3 states. *)
Lemma toy_bic_cap_select :
  SelectorBIC_select toy_fit_all toy_score_cap toy_n_features (toy_selector toy_hwords_A 2 4)
  = Some 3%nat.
Proof.
  assert (Hl : (0 < ln (INR 2) < 1)%R)
    by (simpl INR; replace (1 + 1)%R with 2%R by lra; exact ln2_bounds).
  assert (Hlog : py_log (INR 2) = Ret (ln (INR 2))).
  { unfold py_log. destruct (Rlt_dec 0 (INR 2)) as [_|Hn]; [reflexivity|].
    exfalso. simpl in Hn. lra. }
  unfold SelectorBIC_select, py_range_incl. cbn [seq bic_loop].
  unfold get_model_score. cbn -[Rlt_dec INR Rmult Rplus Rminus Rdiv Ropp ln py_log].
  rewrite !Hlog. cbn [bind].
  repeat (destruct (Rlt_dec _ _)); simpl in *; try reflexivity; exfalso; nra.
Qed.

(** With the capped scorer, the DIC of the word "A" against "B" is
    [10 * min(n, 3)]: it rises to 3 states and ties at 4. *)
Lemma toy_dic_cap_select :
  SelectorDIC_select toy_fit_all toy_score_cap (toy_selector toy_hwords_AB 2 4) = Some 3%nat.
Proof.
  unfold SelectorDIC_select, py_range_incl. cbn [seq dic_loop].
  unfold dic_candidate. cbn -[Rlt_dec py_div INR Rmult Rplus Rminus Rdiv Ropp].
  rewrite !py_div_by_one. cbn [bind].
  repeat (destruct (Rlt_dec _ _)); simpl in *; try reflexivity; exfalso; lra.
Qed.

(** With the capped scorer, the CV average of the two-utterance word is
    [10 * min(n, 3)]: it rises to 3 states and ties at 4. *)
Lemma toy_cv_cap_select :
  SelectorCV_select toy_fit_all toy_score_cap (toy_selector toy_hwords_A 2 4)
  = Ret (Some (Fitted 3%nat)).
Proof.
  unfold SelectorCV_select, py_range_incl. cbn [seq cv_select_loop].
  cbn -[Rlt_dec INR Rmult Rplus Rminus Rdiv Ropp].
  rewrite !np_mean_pair.
  repeat (destruct (Rlt_dec _ _)); simpl in *; try reflexivity; exfalso; lra.
Qed.

Lemma bic_score_closed_form_witness :
  base_model toy_fit_all (toy_selector toy_hwords_A 2 3) 2 = Some 2%nat /\
  toy_score 2 ([0; 1], [1; 1]) = Some (- INR 4)%R /\
  (0 < List.length (sequences (toy_selector toy_hwords_A 2 3)))%nat /\
  get_model_score toy_fit_all toy_score toy_n_features (toy_selector toy_hwords_A 2 3) 2
  = Ret (-2 * (- INR 4) + (INR 2 ^ 2 + 2 * INR 2 * INR (toy_n_features 2) - 1)
         * ln (INR (List.length (sequences (toy_selector toy_hwords_A 2 3)))))%R.
Proof.
  split; [reflexivity|]. split; [reflexivity|]. split; [simpl; lia|].
  apply (bic_score_closed_form toy_fit_all toy_score toy_n_features); [reflexivity|reflexivity|simpl; lia].
Defined.

Lemma bic_empty_range_is_constant_witness :
  (max_n_components (toy_selector toy_hwords_A 3 2)
   < min_n_components (toy_selector toy_hwords_A 3 2))%nat /\
  SelectorBIC_select toy_fit_all toy_score toy_n_features (toy_selector toy_hwords_A 3 2)
  = SelectorConstant_select toy_fit_all (toy_selector toy_hwords_A 3 2).
Proof.
  split; [simpl; lia|].
  apply (bic_empty_range_is_constant toy_fit_all toy_score toy_n_features). simpl. lia.
Defined.

(** C1 as stated fails: candidate 2 fails, candidate 3 would succeed, and
    yet the result is the Constant strategy's. *)
Lemma bic_first_failure_falls_back :
  SelectorBIC_select toy_fit_no2 toy_score toy_n_features (toy_selector toy_hwords_A 2 3)
  = SelectorConstant_select toy_fit_no2 (toy_selector toy_hwords_A 2 3) /\
  exists v, get_model_score toy_fit_no2 toy_score toy_n_features
              (toy_selector toy_hwords_A 2 3) 3 = Ret v.
Proof.
  split; [reflexivity|]. apply toy_gms_fits. reflexivity.
Qed.

Lemma bic_failure_aborts_to_constant_witness :
  consistent (toy_selector toy_hwords_A 2 3) /\
  (exists n e, (min_n_components (toy_selector toy_hwords_A 2 3) <= n
                <= max_n_components (toy_selector toy_hwords_A 2 3))%nat /\
               get_model_score toy_fit_no2 toy_score toy_n_features
                 (toy_selector toy_hwords_A 2 3) n = Raise e) /\
  SelectorBIC_select toy_fit_no2 toy_score toy_n_features (toy_selector toy_hwords_A 2 3)
  = SelectorConstant_select toy_fit_no2 (toy_selector toy_hwords_A 2 3).
Proof.
  assert (Hc : consistent (toy_selector toy_hwords_A 2 3)) by reflexivity.
  assert (Hf : exists n e, (min_n_components (toy_selector toy_hwords_A 2 3) <= n
                <= max_n_components (toy_selector toy_hwords_A 2 3))%nat /\
               get_model_score toy_fit_no2 toy_score toy_n_features
                 (toy_selector toy_hwords_A 2 3) n = Raise e).
  { exists 2%nat, AttributeError. split; [simpl; lia|reflexivity]. }
  split; [exact Hc|]. split; [exact Hf|].
  exact (bic_failure_aborts_to_constant toy_fit_no2 toy_score toy_n_features _ Hc Hf).
Defined.

(** C5 as stated fails: candidate 3 succeeds, but the returned model is the
    Constant strategy's 5-state model, fitted for no candidate. *)
Lemma bic_partial_success_not_argmin :
  (exists v, get_model_score toy_fit_no2 toy_score toy_n_features
               (toy_selector toy_hwords_A 2 3) 3 = Ret v) /\
  SelectorBIC_select toy_fit_no2 toy_score toy_n_features (toy_selector toy_hwords_A 2 3)
    = Some 5%nat /\
  forall n, (2 <= n <= 3)%nat ->
    SelectorBIC_select toy_fit_no2 toy_score toy_n_features (toy_selector toy_hwords_A 2 3)
    <> base_model toy_fit_no2 (toy_selector toy_hwords_A 2 3) n.
Proof.
  split; [apply toy_gms_fits; reflexivity|]. split; [reflexivity|].
  intros n Hn. assert (Hn' : n = 2%nat \/ n = 3%nat) by lia.
  destruct Hn' as [->| ->]; discriminate.
Qed.

Lemma bic_selects_lowest_witness :
  (consistent (toy_selector toy_hwords_A 2 4) /\
   (min_n_components (toy_selector toy_hwords_A 2 4) <= max_n_components (toy_selector toy_hwords_A 2 4))%nat /\
   (forall n, (min_n_components (toy_selector toy_hwords_A 2 4) <= n <= max_n_components (toy_selector toy_hwords_A 2 4))%nat ->
      exists v, get_model_score toy_fit_all toy_score_cap toy_n_features (toy_selector toy_hwords_A 2 4) n = Ret v) /\
   (exists n v m,
      (min_n_components (toy_selector toy_hwords_A 2 4) <= n <= max_n_components (toy_selector toy_hwords_A 2 4))%nat /\
      get_model_score toy_fit_all toy_score_cap toy_n_features (toy_selector toy_hwords_A 2 4) n = Ret v /\
      base_model toy_fit_all (toy_selector toy_hwords_A 2 4) n = Some m /\
      SelectorBIC_select toy_fit_all toy_score_cap toy_n_features (toy_selector toy_hwords_A 2 4) = Some m /\
      forall n' v', (min_n_components (toy_selector toy_hwords_A 2 4) <= n' <= max_n_components (toy_selector toy_hwords_A 2 4))%nat ->
        get_model_score toy_fit_all toy_score_cap toy_n_features (toy_selector toy_hwords_A 2 4) n' = Ret v' ->
        (v <= v')%R /\ ((n' < n)%nat -> (v < v')%R)) /\
   SelectorBIC_select toy_fit_all toy_score_cap toy_n_features (toy_selector toy_hwords_A 2 4) = Some 3%nat) /\
  (consistent (toy_selector toy_hwords_A 2 3) /\
   (min_n_components (toy_selector toy_hwords_A 2 3) <= max_n_components (toy_selector toy_hwords_A 2 3))%nat /\
   (exists n e, (min_n_components (toy_selector toy_hwords_A 2 3) <= n <= max_n_components (toy_selector toy_hwords_A 2 3))%nat /\
      get_model_score toy_fit_no2 toy_score toy_n_features (toy_selector toy_hwords_A 2 3) n = Raise e) /\
   SelectorBIC_select toy_fit_no2 toy_score toy_n_features (toy_selector toy_hwords_A 2 3)
   = SelectorConstant_select toy_fit_no2 (toy_selector toy_hwords_A 2 3)).
Proof.
  split.
  - assert (Hc : consistent (toy_selector toy_hwords_A 2 4)) by reflexivity.
    assert (Hle : (min_n_components (toy_selector toy_hwords_A 2 4) <= max_n_components (toy_selector toy_hwords_A 2 4))%nat) by (simpl; lia).
    assert (Hok : forall n, (min_n_components (toy_selector toy_hwords_A 2 4) <= n <= max_n_components (toy_selector toy_hwords_A 2 4))%nat ->
              exists v, get_model_score toy_fit_all toy_score_cap toy_n_features (toy_selector toy_hwords_A 2 4) n = Ret v)
      by (intros n _; apply toy_gms_fits_cap).
    split; [exact Hc|]. split; [exact Hle|]. split; [exact Hok|]. split.
    + exact (proj1 (bic_selects_lowest toy_fit_all toy_score_cap toy_n_features _ Hc Hle) Hok).
    + exact toy_bic_cap_select.
  - assert (Hc : consistent (toy_selector toy_hwords_A 2 3)) by reflexivity.
    assert (Hle : (min_n_components (toy_selector toy_hwords_A 2 3) <= max_n_components (toy_selector toy_hwords_A 2 3))%nat) by (simpl; lia).
    assert (Hf : exists n e, (min_n_components (toy_selector toy_hwords_A 2 3) <= n <= max_n_components (toy_selector toy_hwords_A 2 3))%nat /\
               get_model_score toy_fit_no2 toy_score toy_n_features (toy_selector toy_hwords_A 2 3) n = Raise e).
    { exists 2%nat, AttributeError. split; [simpl; lia|reflexivity]. }
    split; [exact Hc|]. split; [exact Hle|]. split; [exact Hf|].
    exact (proj2 (bic_selects_lowest toy_fit_no2 toy_score toy_n_features _ Hc Hle) Hf).
Defined.

Lemma dic_own_minus_mean_of_others_witness :
  NoDup (map fst toy_hwords_AB) /\
  ModelSelector_init toy_words toy_hwords_AB "A" 5 2 3 14 false
    = Some (toy_selector toy_hwords_AB 2 3) /\
  toy_fit_all 14 2 (X_lengths (toy_selector toy_hwords_AB 2 3)) = Some 2%nat /\
  toy_score 2 (X_lengths (toy_selector toy_hwords_AB 2 3)) = Some (- INR 4)%R /\
  map (fun p => toy_score 2 (snd p)) (dic_others (toy_selector toy_hwords_AB 2 3))
    = map Some [(- INR 3)%R] /\
  (List.length [(- INR 3)%R] = (List.length toy_hwords_AB - 1)%nat /\
   dic_candidate toy_fit_all toy_score (toy_selector toy_hwords_AB 2 3) 2
   = Ret ((- INR 4 - fold_right Rplus 0 [(- INR 3)%R] / INR (List.length [(- INR 3)%R]))%R,
          2%nat)) /\
  dic_candidate toy_fit_all toy_score (toy_selector toy_hwords_AB 2 3) 2
    = Ret ((- INR 4 - - INR 3)%R, 2%nat).
Proof.
  assert (Hnd : NoDup (map fst toy_hwords_AB)).
  { simpl. constructor; [simpl; intros [H|[]]; discriminate H|].
    constructor; [intros []|constructor]. }
  assert (Hinit : ModelSelector_init toy_words toy_hwords_AB "A" 5 2 3 14 false
                  = Some (toy_selector toy_hwords_AB 2 3)) by reflexivity.
  split; [exact Hnd|]. split; [exact Hinit|].
  split; [reflexivity|]. split; [reflexivity|]. split; [reflexivity|].
  destruct (dic_own_minus_mean_of_others toy_fit_all toy_score) as [Hgen Htwo].
  split.
  - apply (Hgen toy_words toy_hwords_AB "A"%string 5 2 3 14 false); try assumption;
      try reflexivity. discriminate.
  - apply (Htwo toy_words toy_hwords_AB "A"%string "B"%string ([7], [1]) 5 2 3 14 false);
      try assumption; try reflexivity.
    + simpl. auto.
    + discriminate.
Defined.

Lemma dic_single_word_none_witness :
  hwords (toy_selector toy_hwords_A 2 3)
    = [(this_word (toy_selector toy_hwords_A 2 3), ([0; 1], [1; 1]))] /\
  SelectorDIC_select toy_fit_all toy_score (toy_selector toy_hwords_A 2 3) = None.
Proof.
  split; [reflexivity|].
  apply (dic_single_word_none toy_fit_all toy_score _ ([0; 1], [1; 1])). reflexivity.
Defined.

Lemma cv_fold_count_witness :
  (2 <= List.length (sequences (toy_selector toy_hwords_A 2 3)))%nat /\
  exists splits,
    kfold_split (cv_n_split (toy_selector toy_hwords_A 2 3))
      (List.length (sequences (toy_selector toy_hwords_A 2 3))) = Ret splits /\
    List.length splits = cv_n_split (toy_selector toy_hwords_A 2 3) /\
    List.concat (map snd splits) = seq 0 (List.length (sequences (toy_selector toy_hwords_A 2 3))) /\
    (forall f, In f splits -> snd f <> []).
Proof.
  assert (H2 : (2 <= List.length (sequences (toy_selector toy_hwords_A 2 3)))%nat)
    by (simpl; lia).
  split; [exact H2|].
  exact (proj1 (proj2 (proj2 (cv_fold_count (toy_selector toy_hwords_A 2 3)))) H2).
Defined.

(** C6 as stated fails: a word with a single utterance sequence gets
    k = 2, and the split raises instead of partitioning. *)
Lemma cv_single_sequence_no_partition :
  cv_n_split toy_selector1 = 2%nat /\
  kfold_split (cv_n_split toy_selector1) (List.length (sequences toy_selector1))
    = Raise ValueError /\
  avg_score toy_fit_all toy_score toy_selector1 2 = Raise ValueError.
Proof. split; [reflexivity|]. split; reflexivity. Qed.

Lemma cv_failed_folds_excluded_witness :
  avg_score toy_fit_no2 toy_score (toy_selector toy_hwords_A 2 2) 2
    = Ret (NInf, Some (Unfitted 2)) /\
  (exists splits,
     kfold_split (cv_n_split (toy_selector toy_hwords_A 2 2))
       (List.length (sequences (toy_selector toy_hwords_A 2 2))) = Ret splits /\
     NInf = cv_average (flat_map (cv_fold_contribution toy_fit_no2 toy_score
                                    (toy_selector toy_hwords_A 2 2) 2) splits) /\
     ((forall f, In f splits ->
         cv_fold_contribution toy_fit_no2 toy_score (toy_selector toy_hwords_A 2 2) 2 f = []) ->
      NInf = NInf)) /\
  (forall n, (min_n_components (toy_selector toy_hwords_A 2 2) <= n
              <= max_n_components (toy_selector toy_hwords_A 2 2))%nat ->
     exists o, avg_score toy_fit_no2 toy_score (toy_selector toy_hwords_A 2 2) n = Ret (NInf, o)) /\
  SelectorCV_select toy_fit_no2 toy_score (toy_selector toy_hwords_A 2 2) = Ret None.
Proof.
  assert (Ha : avg_score toy_fit_no2 toy_score (toy_selector toy_hwords_A 2 2) 2
               = Ret (NInf, Some (Unfitted 2))) by reflexivity.
  assert (Hall : forall n, (min_n_components (toy_selector toy_hwords_A 2 2) <= n
              <= max_n_components (toy_selector toy_hwords_A 2 2))%nat ->
     exists o, avg_score toy_fit_no2 toy_score (toy_selector toy_hwords_A 2 2) n = Ret (NInf, o)).
  { intros n Hn. replace n with 2%nat by (simpl in Hn; lia). eexists. exact Ha. }
  destruct (cv_failed_folds_excluded toy_fit_no2 toy_score (toy_selector toy_hwords_A 2 2))
    as (H1 & _ & H3).
  split; [exact Ha|]. split; [exact (H1 2%nat NInf (Some (Unfitted 2)) Ha)|].
  split; [exact Hall|]. exact (H3 Hall).
Defined.

Lemma cv_select_raises_on_short_word_witness :
  (List.length (sequences toy_selector1) < 2)%nat /\
  (min_n_components toy_selector1 <= max_n_components toy_selector1)%nat /\
  SelectorCV_select toy_fit_all toy_score toy_selector1 = Raise ValueError.
Proof.
  split; [simpl; lia|]. split; [simpl; lia|].
  apply (cv_select_raises_on_short_word toy_fit_all toy_score); simpl; lia.
Defined.

(** C10 (code defect): the word has two sequences, the fit of the first
    fold succeeds and the fit of the second raises.  The candidate's
    average is finite, so it is selected, and [SelectorCV.select] returns
    the object of the second fold, whose [fit] raised, instead of the
    first fold's fitted model. *)
Theorem cv_returns_failed_last_fold :
  toy_fit_not0 14 2 ([1], [1]) = Some 2%nat /\
  toy_fit_not0 14 2 ([0], [1]) = None /\
  (exists a, avg_score toy_fit_not0 toy_score (toy_selector toy_hwords_A 2 2) 2
             = Ret (Fin a, Some (Unfitted 2))) /\
  SelectorCV_select toy_fit_not0 toy_score (toy_selector toy_hwords_A 2 2)
    = Ret (Some (Unfitted 2)).
Proof.
  split; [reflexivity|]. split; [reflexivity|]. split; [eexists; reflexivity|].
  reflexivity.
Qed.

(** * Further properties of the selectors *)

Section Extras.

Context {Frame Model : Type}.
Variable gaussian_fit : nat -> nat -> @XLen Frame -> option Model.
Variable model_score : Model -> @XLen Frame -> option R.
Variable n_features : Model -> nat.

(** *** Index ranges of the folds *)

Lemma map_res_index_ok {A : Type} (l : list A) :
  forall idx, (forall i, In i idx -> (i < List.length l)%nat) ->
  exists xs, map_res (py_index l) idx = Ret xs.
Proof.
  induction idx as [|i idx IH]; intros Hin; [eexists; reflexivity|].
  cbn [map_res]. unfold py_index at 1.
  destruct (nth_error l i) as [a|] eqn:E.
  - cbn [bind]. destruct IH as [xs ->]; [intros j Hj; apply Hin; right; exact Hj|].
    cbn [bind]. eexists; reflexivity.
  - exfalso. apply nth_error_None in E. specialize (Hin i (or_introl eq_refl)). lia.
Qed.

Lemma combine_ok (idx : list nat) (l : list (list Frame)) :
  (forall i, In i idx -> (i < List.length l)%nat) ->
  exists xl, combine_sequences idx l = Ret xl.
Proof.
  intros Hin. unfold combine_sequences.
  destruct (map_res_index_ok l idx Hin) as [xs ->]. eexists; reflexivity.
Qed.

Lemma kfold_folds_complement (n : nat) (sizes : list nat) :
  forall c, (c + list_sum sizes <= n)%nat ->
  forall f, In f (kfold_folds sizes c n) ->
  (forall i, In i (fst f) <-> ((i < n)%nat /\ ~ In i (snd f))) /\
  (forall i, In i (snd f) -> (i < n)%nat).
Proof.
  induction sizes as [|sz sizes IH]; intros c Hc f Hf; simpl in Hf; [destruct Hf|].
  simpl in Hc. destruct Hf as [<-|Hf].
  - cbn [fst snd]. split.
    + intros i. rewrite in_app_iff, !in_seq. lia.
    + intros i Hi. rewrite in_seq in Hi. lia.
  - apply (IH (c + sz)); [lia|exact Hf].
Qed.

Lemma kfold_split_ok (k N : nat) :
  (2 <= k <= N)%nat ->
  kfold_split k N = Ret (kfold_folds (kfold_sizes k N) 0 N).
Proof.
  intros H. unfold kfold_split.
  replace (N <? k) with false by (symmetry; apply Nat.ltb_ge; lia). reflexivity.
Qed.

Lemma kfold_split_folds (k N : nat) (splits : list (list nat * list nat)) :
  kfold_split k N = Ret splits -> (2 <= k)%nat ->
  List.length splits = k /\
  forall f, In f splits ->
  (forall i, In i (fst f) <-> ((i < N)%nat /\ ~ In i (snd f))) /\
  (forall i, In i (snd f) -> (i < N)%nat).
Proof.
  unfold kfold_split. destruct (Nat.ltb_spec N k); [discriminate|].
  intros Hs Hk. injection Hs as <-. split.
  - rewrite kfold_folds_length. unfold kfold_sizes. rewrite length_map, length_seq.
    reflexivity.
  - apply kfold_folds_complement. rewrite kfold_sizes_sum by lia. lia.
Qed.

Lemma cv_n_split_ge2 (s : @ModelSelector Frame) : (2 <= cv_n_split s)%nat.
Proof. unfold cv_n_split. destruct (_ <? 3); lia. Qed.

Lemma cv_fold_loop_ok (s : ModelSelector) (n_comp : nat) :
  forall splits scores hm,
  (forall f, In f splits ->
     (forall i, In i (fst f) -> (i < List.length (sequences s))%nat) /\
     (forall i, In i (snd f) -> (i < List.length (sequences s))%nat)) ->
  exists r, cv_fold_loop gaussian_fit model_score s n_comp splits scores hm = Ret r.
Proof.
  induction splits as [|[tr te] splits IH]; intros scores hm Hin; [eexists; reflexivity|].
  destruct (Hin (tr, te) (or_introl eq_refl)) as [Htr Hte].
  assert (Hin' : forall f, In f splits ->
     (forall i, In i (fst f) -> (i < List.length (sequences s))%nat) /\
     (forall i, In i (snd f) -> (i < List.length (sequences s))%nat))
    by (intros f Hf; apply Hin; right; exact Hf).
  cbn [cv_fold_loop].
  destruct (combine_ok tr (sequences s) Htr) as [xtr ->].
  destruct (combine_ok te (sequences s) Hte) as [xte ->]. cbn [bind].
  destruct (gaussian_fit (random_state s) n_comp xtr) as [m|]; [|apply IH, Hin'].
  destruct (model_score m xte); apply IH, Hin'.
Qed.

Lemma avg_score_ok (s : ModelSelector) (n_comp : nat) :
  (2 <= List.length (sequences s))%nat ->
  exists a o, avg_score gaussian_fit model_score s n_comp = Ret (a, o).
Proof.
  intros HN. unfold avg_score.
  assert (Hk : (2 <= cv_n_split s <= List.length (sequences s))%nat)
    by (unfold cv_n_split; destruct (Nat.ltb_spec (List.length (sequences s)) 3); lia).
  rewrite (kfold_split_ok _ _ Hk). cbn [bind].
  destruct (kfold_split_folds _ _ _ (kfold_split_ok _ _ Hk) (proj1 Hk)) as [_ Hf].
  destruct (cv_fold_loop_ok s n_comp (kfold_folds (kfold_sizes (cv_n_split s)
              (List.length (sequences s))) 0 (List.length (sequences s))) [] None)
    as [r ->].
  { intros f Hin. destruct (Hf f Hin) as [Htr Hte]. split; [|exact Hte].
    intros i Hi. apply Htr in Hi. lia. }
  cbn [bind]. eexists _, _. reflexivity.
Qed.

Lemma cv_select_loop_ok (s : ModelSelector) :
  (2 <= List.length (sequences s))%nat ->
  forall ns lowest model,
  exists r, cv_select_loop gaussian_fit model_score s ns lowest model = Ret r.
Proof.
  intros HN ns. induction ns as [|n ns IH]; intros lowest model; [eexists; reflexivity|].
  cbn [cv_select_loop]. destruct (avg_score_ok s n HN) as (a & o & ->). cbn [bind].
  destruct (ereal_lt lowest (fst (a, o))); apply IH.
Qed.

(** X: with at least two utterance sequences, [SelectorCV.select] never
    raises: every fold index is in range and [KFold] accepts the split. *)
Theorem cv_select_total (s : ModelSelector) :
  (2 <= List.length (sequences s))%nat ->
  exists r, SelectorCV_select gaussian_fit model_score s = Ret r.
Proof. intros HN. apply cv_select_loop_ok, HN. Qed.

(** X: in [SelectorCV.avg_score] the split has exactly [n_split] folds,
    and each fold's training indices are exactly the utterance indices
    outside its held-out fold: no held-out sequence is trained on. *)
Theorem cv_train_test_complement (s : @ModelSelector Frame)
    (splits : list (list nat * list nat)) :
  kfold_split (cv_n_split s) (List.length (sequences s)) = Ret splits ->
  List.length splits = cv_n_split s /\
  forall f, In f splits ->
  (forall i, In i (fst f) <->
             ((i < List.length (sequences s))%nat /\ ~ In i (snd f))) /\
  (forall i, In i (snd f) -> (i < List.length (sequences s))%nat).
Proof. intros Hs. apply (kfold_split_folds _ _ _ Hs), cv_n_split_ge2. Qed.

Lemma cv_fold_loop_last (s : ModelSelector) (n_comp : nat) :
  forall splits scores hm r, splits <> [] ->
  cv_fold_loop gaussian_fit model_score s n_comp splits scores hm = Ret r ->
  exists tr te xtr,
    last splits ([], []) = (tr, te) /\
    combine_sequences tr (sequences s) = Ret xtr /\
    snd r = Some (match gaussian_fit (random_state s) n_comp xtr with
                  | Some m => Fitted m
                  | None => Unfitted n_comp
                  end).
Proof.
  induction splits as [|[tr te] rest IH]; intros scores hm r Hne Hrun; [congruence|].
  cbn [cv_fold_loop] in Hrun.
  destruct (combine_sequences tr (sequences s)) as [xtr|] eqn:Etr; [|discriminate].
  destruct (combine_sequences te (sequences s)) as [xte|]; [|discriminate].
  cbn [bind] in Hrun.
  destruct rest as [|f rest].
  - exists tr, te, xtr. split; [reflexivity|]. split; [exact Etr|].
    destruct (gaussian_fit (random_state s) n_comp xtr) as [m|].
    + destruct (model_score m xte); cbn [cv_fold_loop] in Hrun;
        injection Hrun as <-; reflexivity.
    + cbn [cv_fold_loop] in Hrun. injection Hrun as <-. reflexivity.
  - assert (Hne' : f :: rest <> []) by discriminate.
    destruct (gaussian_fit (random_state s) n_comp xtr) as [m|];
      [destruct (model_score m xte)|];
      destruct (IH _ _ _ Hne' Hrun) as (tr' & te' & xtr' & Hl & Hc & Ho);
      exists tr', te', xtr'; auto.
Qed.

(** X: the model [SelectorCV.avg_score] returns for a candidate is the
    object built in the last fold of the split, fitted on that fold's
    training sequences: the fitted model when that fit returns, the
    unfitted object when it raises; no model is refitted on the whole
    word. *)
Theorem cv_avg_score_last_fold_model (s : ModelSelector) (n_comp : nat)
    (a : ereal) (o : option hmm_obj) :
  avg_score gaussian_fit model_score s n_comp = Ret (a, o) ->
  exists splits tr te xtr,
    kfold_split (cv_n_split s) (List.length (sequences s)) = Ret splits /\
    last splits ([], []) = (tr, te) /\
    combine_sequences tr (sequences s) = Ret xtr /\
    o = Some (match gaussian_fit (random_state s) n_comp xtr with
              | Some m => Fitted m
              | None => Unfitted n_comp
              end).
Proof.
  unfold avg_score.
  destruct (kfold_split _ _) as [splits|] eqn:Es; cbn [bind]; [|discriminate].
  destruct (cv_fold_loop gaussian_fit model_score s n_comp splits [] None) as [r|] eqn:Er;
    cbn [bind]; [|discriminate].
  intros H. injection H as _ <-.
  assert (Hne : splits <> []).
  { destruct (kfold_split_folds _ _ _ Es (cv_n_split_ge2 s)) as [Hl _].
    intros ->. pose proof (cv_n_split_ge2 s). simpl in Hl. lia. }
  destruct (cv_fold_loop_last s n_comp splits [] None r Hne Er) as (tr & te & xtr & H1 & H2 & H3).
  exists splits, tr, te, xtr. auto.
Qed.

(** *** Comparisons against a running best *)

Lemma ereal_lt_rev_trans (e : ereal) (a b : R) :
  ereal_lt e (Fin a) = true -> (a < b)%R -> ereal_lt e (Fin b) = true.
Proof.
  destruct e as [c| |]; simpl; try easy.
  destruct (Rlt_dec c a), (Rlt_dec c b); try easy; lra.
Qed.

Lemma ereal_lt_rev_mixed (e : ereal) (a b : R) :
  ereal_lt e (Fin a) = true -> ereal_lt e (Fin b) = false -> (b < a)%R.
Proof.
  destruct e as [c| |]; simpl; try easy.
  destruct (Rlt_dec c a), (Rlt_dec c b); try easy; lra.
Qed.

(** The DIC loop over [lo, lo + len) keeps the first candidate of highest
    DIC above [l], or keeps [model] when no candidate beats [l]. *)
Lemma dic_loop_max (s : ModelSelector) :
  forall len lo l model,
  (dic_loop gaussian_fit model_score s (seq lo len) l model = model /\
   forall n d m, (lo <= n < lo + len)%nat ->
     dic_candidate gaussian_fit model_score s n = Ret (d, m) -> ereal_lt l (Fin d) = false)
  \/
  (exists n d m, (lo <= n < lo + len)%nat /\
     dic_candidate gaussian_fit model_score s n = Ret (d, m) /\
     dic_loop gaussian_fit model_score s (seq lo len) l model = Some m /\
     ereal_lt l (Fin d) = true /\
     forall n' d' m', (lo <= n' < lo + len)%nat ->
       dic_candidate gaussian_fit model_score s n' = Ret (d', m') ->
       (d' <= d)%R /\ ((n' < n)%nat -> (d' < d)%R)).
Proof.
  induction len as [|len IH]; intros lo l model.
  - left. split; [reflexivity|]. intros n d m Hn. lia.
  - cbn [seq dic_loop].
    destruct (dic_candidate gaussian_fit model_score s lo) as [[d0 m0]|e] eqn:E0.
    + destruct (ereal_lt l (Fin d0)) eqn:Hl.
      * right.
        destruct (IH (S lo) (Fin d0) (Some m0))
          as [(Hr & Hall) | (n & d & m & Hn & Hd & Hr & Hlt & Hmax)].
        -- exists lo, d0, m0. split; [lia|]. split; [exact E0|]. split; [exact Hr|].
           split; [exact Hl|].
           intros n' d' m' Hn' Hd'.
           destruct (Nat.eq_dec n' lo) as [->|Hne].
           ++ rewrite E0 in Hd'. injection Hd' as <- <-. split; [lra|lia].
           ++ split; [|lia]. apply ereal_lt_fin_false. apply (Hall n' d' m'); [lia|exact Hd'].
        -- apply ereal_lt_fin in Hlt.
           exists n, d, m. split; [lia|]. split; [exact Hd|]. split; [exact Hr|].
           split; [apply (ereal_lt_rev_trans l d0 d Hl Hlt)|].
           intros n' d' m' Hn' Hd'.
           destruct (Nat.eq_dec n' lo) as [->|Hne].
           ++ rewrite E0 in Hd'. injection Hd' as <- <-. split; lra.
           ++ apply (Hmax n' d' m'); [lia|exact Hd'].
      * destruct (IH (S lo) l model)
          as [(Hr & Hall) | (n & d & m & Hn & Hd & Hr & Hlt & Hmax)].
        -- left. split; [exact Hr|]. intros n d m Hn Hd.
           destruct (Nat.eq_dec n lo) as [->|Hne].
           ++ rewrite E0 in Hd. injection Hd as <- <-. exact Hl.
           ++ apply (Hall n d m); [lia|exact Hd].
        -- right. exists n, d, m. split; [lia|]. split; [exact Hd|]. split; [exact Hr|].
           split; [exact Hlt|].
           intros n' d' m' Hn' Hd'.
           destruct (Nat.eq_dec n' lo) as [->|Hne].
           ++ rewrite E0 in Hd'. injection Hd' as <- <-.
              pose proof (ereal_lt_rev_mixed l d d0 Hlt Hl). split; lra.
           ++ apply (Hmax n' d' m'); [lia|exact Hd'].
    + destruct (IH (S lo) l model)
        as [(Hr & Hall) | (n & d & m & Hn & Hd & Hr & Hlt & Hmax)].
      * left. split; [exact Hr|]. intros n d m Hn Hd.
        destruct (Nat.eq_dec n lo) as [->|Hne]; [congruence|].
        apply (Hall n d m); [lia|exact Hd].
      * right. exists n, d, m. split; [lia|]. split; [exact Hd|]. split; [exact Hr|].
        split; [exact Hlt|].
        intros n' d' m' Hn' Hd'.
        destruct (Nat.eq_dec n' lo) as [->|Hne]; [congruence|].
        apply (Hmax n' d' m'); [lia|exact Hd'].
Qed.

(** X: [SelectorDIC.select] returns [None] exactly when every candidate in
    [min_n_components, max_n_components] fails (its fit, a scoring or the
    mean over the other words raises); an empty range gives [None]. *)
Theorem dic_select_none_iff (s : ModelSelector) :
  SelectorDIC_select gaussian_fit model_score s = None <->
  (forall n, (min_n_components s <= n <= max_n_components s)%nat ->
     exists e, dic_candidate gaussian_fit model_score s n = Raise e).
Proof.
  unfold SelectorDIC_select, py_range_incl.
  destruct (dic_loop_max s (S (max_n_components s) - min_n_components s)
              (min_n_components s) NInf None)
    as [(Hr & Hall) | (n & d & m & Hn & Hd & Hr & _ & _)].
  - rewrite Hr. split; [|reflexivity]. intros _ n Hn.
    destruct (dic_candidate gaussian_fit model_score s n) as [[d m]|e] eqn:E; [|eauto].
    exfalso. specialize (Hall n d m ltac:(lia) E). discriminate Hall.
  - rewrite Hr. split; [discriminate|]. intros Hall.
    destruct (Hall n ltac:(lia)) as [e He]. congruence.
Qed.

(** X: when [SelectorDIC.select] returns a model, it is the model fitted
    for a candidate [n] of the range whose DIC is the highest over the
    candidates that succeed, and strictly higher than the DIC of every
    smaller candidate: ties go to the smallest state count. *)
Theorem dic_select_argmax (s : ModelSelector) (m : Model) :
  SelectorDIC_select gaussian_fit model_score s = Some m ->
  exists n d,
    (min_n_components s <= n <= max_n_components s)%nat /\
    dic_candidate gaussian_fit model_score s n = Ret (d, m) /\
    forall n' d' m', (min_n_components s <= n' <= max_n_components s)%nat ->
      dic_candidate gaussian_fit model_score s n' = Ret (d', m') ->
      (d' <= d)%R /\ ((n' < n)%nat -> (d' < d)%R).
Proof.
  unfold SelectorDIC_select, py_range_incl. intros Hsel.
  destruct (dic_loop_max s (S (max_n_components s) - min_n_components s)
              (min_n_components s) NInf None)
    as [(Hr & _) | (n & d & m' & Hn & Hd & Hr & _ & Hmax)].
  - rewrite Hr in Hsel. discriminate.
  - rewrite Hr in Hsel. injection Hsel as ->.
    exists n, d. split; [lia|]. split; [exact Hd|].
    intros n' d' m'' Hn' Hd'. apply (Hmax n' d' m''); [lia|exact Hd'].
Qed.

Lemma avg_score_value (s : ModelSelector) (n_comp : nat) (a : ereal) (o : option hmm_obj) :
  avg_score gaussian_fit model_score s n_comp = Ret (a, o) ->
  a = NInf \/ exists x, a = Fin x.
Proof.
  intros H. destruct (avg_score_unfold gaussian_fit model_score s n_comp a o H) as (splits & _ & ->).
  apply cv_average_cases.
Qed.

(** The CV loop over [lo, lo + len), when it returns, keeps the object of
    the first candidate of highest finite average above [low], or keeps
    [model] when no average beats [low]. *)
Lemma cv_loop_max (s : ModelSelector) :
  forall len lo low model r,
  cv_select_loop gaussian_fit model_score s (seq lo len) low model = Ret r ->
  (r = model /\
   forall n a o, (lo <= n < lo + len)%nat ->
     avg_score gaussian_fit model_score s n = Ret (a, o) ->
     a = NInf \/ exists x, a = Fin x /\ ereal_lt low (Fin x) = false)
  \/
  (exists n x, (lo <= n < lo + len)%nat /\
     avg_score gaussian_fit model_score s n = Ret (Fin x, r) /\
     ereal_lt low (Fin x) = true /\
     forall n' a' o', (lo <= n' < lo + len)%nat ->
       avg_score gaussian_fit model_score s n' = Ret (a', o') ->
       a' = NInf \/ exists y, a' = Fin y /\ (y <= x)%R /\ ((n' < n)%nat -> (y < x)%R)).
Proof.
  induction len as [|len IH]; intros lo low model r Hrun.
  - left. cbn in Hrun. injection Hrun as <-. split; [reflexivity|]. intros n a o Hn. lia.
  - cbn [seq cv_select_loop] in Hrun.
    destruct (avg_score gaussian_fit model_score s lo) as [[a0 o0]|e] eqn:E0;
      cbn [bind fst snd] in Hrun; [|discriminate].
    destruct (ereal_lt low a0) eqn:Hl.
    + destruct (avg_score_value s lo a0 o0 E0) as [->|[x0 ->]];
        [destruct low; discriminate Hl|].
      right.
      destruct (IH (S lo) (Fin x0) o0 r Hrun)
        as [(Hr & Hall) | (n & x & Hn & Hx & Hlt & Hmax)].
      * subst r. exists lo, x0. split; [lia|]. split; [exact E0|]. split; [exact Hl|].
        intros n' a' o' Hn' Ha'.
        destruct (Nat.eq_dec n' lo) as [->|Hne].
        -- rewrite E0 in Ha'. injection Ha' as <- _. right. exists x0. split; [reflexivity|].
           split; [lra|lia].
        -- destruct (Hall n' a' o' ltac:(lia) Ha') as [->|(y & -> & Hy)]; [left; reflexivity|].
           right. exists y. split; [reflexivity|]. apply ereal_lt_fin_false in Hy.
           split; [exact Hy|lia].
      * apply ereal_lt_fin in Hlt.
        exists n, x. split; [lia|]. split; [exact Hx|].
        split; [apply (ereal_lt_rev_trans low x0 x Hl Hlt)|].
        intros n' a' o' Hn' Ha'.
        destruct (Nat.eq_dec n' lo) as [->|Hne].
        -- rewrite E0 in Ha'. injection Ha' as <- _. right. exists x0.
           split; [reflexivity|]. split; lra.
        -- apply (Hmax n' a' o'); [lia|exact Ha'].
    + destruct (IH (S lo) low model r Hrun)
        as [(Hr & Hall) | (n & x & Hn & Hx & Hlt & Hmax)].
      * left. split; [exact Hr|]. intros n a o Hn Ha.
        destruct (Nat.eq_dec n lo) as [->|Hne].
        -- rewrite E0 in Ha. injection Ha as <- _.
           destruct (avg_score_value s lo a0 o0 E0) as [->|[x0 ->]]; [left; reflexivity|].
           right. exists x0. split; [reflexivity|exact Hl].
        -- apply (Hall n a o); [lia|exact Ha].
      * right. exists n, x. split; [lia|]. split; [exact Hx|]. split; [exact Hlt|].
        intros n' a' o' Hn' Ha'.
        destruct (Nat.eq_dec n' lo) as [->|Hne].
        -- rewrite E0 in Ha'. injection Ha' as <- _.
           destruct (avg_score_value s lo a0 o0 E0) as [->|[x0 ->]]; [left; reflexivity|].
           right. exists x0. split; [reflexivity|].
           pose proof (ereal_lt_rev_mixed low x x0 Hlt Hl). split; lra.
        -- apply (Hmax n' a' o'); [lia|exact Ha'].
Qed.

(** X: when [SelectorCV.select] returns, either no candidate of the range
    has a finite average (every average is [-inf]) and the result is
    [None], or the result is the object that [avg_score] returns for a
    candidate [n] whose average is finite, not below any other average,
    and strictly above the average of every smaller candidate. *)
Theorem cv_select_argmax (s : ModelSelector) (r : option hmm_obj) :
  SelectorCV_select gaussian_fit model_score s = Ret r ->
  (r = None /\
   forall n a o, (min_n_components s <= n <= max_n_components s)%nat ->
     avg_score gaussian_fit model_score s n = Ret (a, o) -> a = NInf)
  \/
  (exists n x, (min_n_components s <= n <= max_n_components s)%nat /\
     avg_score gaussian_fit model_score s n = Ret (Fin x, r) /\
     forall n' a' o', (min_n_components s <= n' <= max_n_components s)%nat ->
       avg_score gaussian_fit model_score s n' = Ret (a', o') ->
       a' = NInf \/ exists y, a' = Fin y /\ (y <= x)%R /\ ((n' < n)%nat -> (y < x)%R)).
Proof.
  unfold SelectorCV_select, py_range_incl. intros Hrun.
  destruct (cv_loop_max s _ _ _ _ _ Hrun)
    as [(Hr & Hall) | (n & x & Hn & Hx & _ & Hmax)].
  - left. split; [exact Hr|]. intros n a o Hn Ha.
    destruct (Hall n a o ltac:(lia) Ha) as [->|(x & _ & Hx)]; [reflexivity|discriminate Hx].
  - right. exists n, x. split; [lia|]. split; [exact Hx|].
    intros n' a' o' Hn' Ha'. apply (Hmax n' a' o'); [lia|exact Ha'].
Qed.

(** *** What [SelectorBIC.select] fits its result on *)

Lemma base_model_fit (s : ModelSelector) (n : nat) :
  base_model gaussian_fit s n = gaussian_fit (random_state s) n (X_lengths s).
Proof.
  unfold base_model, catch_none, fit_res.
  destruct (gaussian_fit (random_state s) n (X_lengths s)); reflexivity.
Qed.

(** The object the BIC loop threads is always the original one or the one
    whose flat data was reassigned to the combination of all its
    sequences, and the model it holds, when bound, is a fit on that
    combination with a state count the loop visited. *)
Lemma bic_loop_shape (s : ModelSelector) (P : nat -> Prop) :
  forall ns s' best model,
  (s' = s \/
   s' = set_X_lengths s (List.concat (sequences s), map (@List.length Frame) (sequences s))) ->
  (forall n, In n ns -> P n) ->
  (model = None \/ exists n, P n /\
     model = Some (gaussian_fit (random_state s) n
                     (List.concat (sequences s), map (@List.length Frame) (sequences s)))) ->
  (fst (bic_loop gaussian_fit model_score n_features s' ns best model) = s \/
   fst (bic_loop gaussian_fit model_score n_features s' ns best model)
   = set_X_lengths s (List.concat (sequences s), map (@List.length Frame) (sequences s))) /\
  (forall m, snd (bic_loop gaussian_fit model_score n_features s' ns best model) = Ret m ->
   m = None \/ exists n, P n /\
     m = Some (gaussian_fit (random_state s) n
                 (List.concat (sequences s), map (@List.length Frame) (sequences s)))).
Proof.
  induction ns as [|a ns IH]; intros s' best model Hs HP Hm; cbn [bic_loop].
  - cbn [fst snd]. split; [exact Hs|]. intros m' Hm'. injection Hm' as <-. exact Hm.
  - destruct (get_model_score gaussian_fit model_score n_features s' a) as [v|e].
    + destruct (ereal_lt (Fin v) best).
      * assert (Hseq : sequences s' = sequences s) by (destruct Hs as [-> | ->]; reflexivity).
        rewrite Hseq, combine_all.
        assert (Hset : set_X_lengths s' (List.concat (sequences s),
                                         map (@List.length Frame) (sequences s))
                       = set_X_lengths s (List.concat (sequences s),
                                          map (@List.length Frame) (sequences s)))
          by (destruct Hs as [-> | ->]; reflexivity).
        cbv beta iota zeta. rewrite Hset.
        apply IH; [right; reflexivity | intros n Hn; apply HP; right; exact Hn |].
        right. exists a. split; [apply HP; left; reflexivity|].
        rewrite base_model_fit. reflexivity.
      * apply IH; [exact Hs | intros n Hn; apply HP; right; exact Hn | exact Hm].
    + cbn [fst snd]. split; [exact Hs|]. intros m' Hm'. discriminate Hm'.
Qed.

(** X: the model [SelectorBIC.select] returns is the trainer's result for
    one of three fits: a candidate [n] of the range fitted on the
    combination of all the word's sequences, or the fallback
    [n_constant]-state fit on either the word's original flat data or that
    combination (when the loop had reassigned [self.X, self.lengths]
    before the exception). *)
Theorem bic_select_fit_data (s : ModelSelector) :
  (exists n, (min_n_components s <= n <= max_n_components s)%nat /\
     SelectorBIC_select gaussian_fit model_score n_features s
     = gaussian_fit (random_state s) n
         (List.concat (sequences s), map (@List.length Frame) (sequences s)))
  \/ SelectorBIC_select gaussian_fit model_score n_features s
     = gaussian_fit (random_state s) (n_constant s) (X_lengths s)
  \/ SelectorBIC_select gaussian_fit model_score n_features s
     = gaussian_fit (random_state s) (n_constant s)
         (List.concat (sequences s), map (@List.length Frame) (sequences s)).
Proof.
  unfold SelectorBIC_select.
  destruct (bic_loop_shape s (fun n => (min_n_components s <= n <= max_n_components s)%nat)
              (py_range_incl (min_n_components s) (max_n_components s)) s PInf None)
    as [Hs Hm];
    [left; reflexivity | intros n Hn; apply in_range_incl; exact Hn | left; reflexivity |].
  revert Hs Hm.
  destruct (bic_loop gaussian_fit model_score n_features s
              (py_range_incl (min_n_components s) (max_n_components s)) PInf None)
    as [s'' r].
  cbn [fst snd]. intros Hs Hm.
  assert (Hfb : base_model gaussian_fit s'' (n_constant s'')
                = gaussian_fit (random_state s) (n_constant s) (X_lengths s) \/
                base_model gaussian_fit s'' (n_constant s'')
                = gaussian_fit (random_state s) (n_constant s)
                    (List.concat (sequences s), map (@List.length Frame) (sequences s))).
  { rewrite base_model_fit. destruct Hs as [-> | ->]; [left|right]; reflexivity. }
  destruct r as [mm|e]; cbn [bind].
  - destruct (Hm mm eq_refl) as [-> | (n & Hn & ->)].
    + right. exact Hfb.
    + left. exists n. split; [exact Hn|reflexivity].
  - right. exact Hfb.
Qed.

(** *** Edge cases *)

Lemma bic_score_no_sequences (s : ModelSelector) (n : nat) :
  sequences s = [] ->
  exists e, get_model_score gaussian_fit model_score n_features s n = Raise e.
Proof.
  intros Hs. unfold get_model_score. rewrite combine_all. cbn [bind].
  destruct (base_model gaussian_fit s n) as [m|]; [|eexists; reflexivity].
  destruct (score_res model_score m _) as [L|e]; cbn [bind]; [|eexists; reflexivity].
  rewrite Hs. unfold py_log. simpl INR.
  destruct (Rlt_dec 0 0) as [H|_]; [exfalso; lra|]. eexists; reflexivity.
Qed.

(** X: for a word with no utterance sequence, [SelectorBIC.select] returns
    the [n_constant]-state fit on the word's flat data: every candidate
    raises (its fit fails, or [math.log(0)] raises), and so does an empty
    range. *)
Theorem bic_no_sequences_constant (s : ModelSelector) :
  sequences s = [] ->
  SelectorBIC_select gaussian_fit model_score n_features s
  = gaussian_fit (random_state s) (n_constant s) (X_lengths s).
Proof.
  intros Hs. unfold SelectorBIC_select.
  destruct (py_range_incl (min_n_components s) (max_n_components s)) as [|n ns].
  - cbn [bic_loop bind]. apply base_model_fit.
  - cbn [bic_loop]. destruct (bic_score_no_sequences s n Hs) as [e ->].
    cbn [bind]. apply base_model_fit.
Qed.

(** X: [SelectorCV.select] returns [None] without splitting anything when
    the range is empty ([min_n_components > max_n_components]), whatever
    the number of sequences. *)
Theorem cv_empty_range_none (s : ModelSelector) :
  (max_n_components s < min_n_components s)%nat ->
  SelectorCV_select gaussian_fit model_score s = Ret None.
Proof.
  intros H. unfold SelectorCV_select, py_range_incl.
  replace (S (max_n_components s) - min_n_components s)%nat with 0%nat by lia.
  reflexivity.
Qed.

End Extras.

Lemma cv_select_total_witness :
  (2 <= List.length (sequences (toy_selector toy_hwords_A 2 3)))%nat /\
  exists r, SelectorCV_select toy_fit_all toy_score (toy_selector toy_hwords_A 2 3) = Ret r.
Proof.
  assert (H2 : (2 <= List.length (sequences (toy_selector toy_hwords_A 2 3)))%nat)
    by (simpl; lia).
  split; [exact H2|]. exact (cv_select_total toy_fit_all toy_score _ H2).
Defined.

Lemma cv_train_test_complement_witness :
  exists splits,
    kfold_split (cv_n_split (toy_selector toy_hwords_A 2 3))
      (List.length (sequences (toy_selector toy_hwords_A 2 3))) = Ret splits /\
    List.length splits = cv_n_split (toy_selector toy_hwords_A 2 3) /\
    forall f, In f splits ->
    (forall i, In i (fst f) <->
       ((i < List.length (sequences (toy_selector toy_hwords_A 2 3)))%nat /\ ~ In i (snd f))) /\
    (forall i, In i (snd f) -> (i < List.length (sequences (toy_selector toy_hwords_A 2 3)))%nat).
Proof.
  eexists. split; [reflexivity|].
  apply (cv_train_test_complement (toy_selector toy_hwords_A 2 3)). reflexivity.
Defined.

Lemma cv_avg_score_last_fold_model_witness :
  exists a,
    avg_score toy_fit_not0 toy_score (toy_selector toy_hwords_A 2 2) 2
      = Ret (Fin a, Some (Unfitted 2)) /\
    exists splits tr te xtr,
      kfold_split (cv_n_split (toy_selector toy_hwords_A 2 2))
        (List.length (sequences (toy_selector toy_hwords_A 2 2))) = Ret splits /\
      last splits ([], []) = (tr, te) /\
      combine_sequences tr (sequences (toy_selector toy_hwords_A 2 2)) = Ret xtr /\
      Some (Unfitted 2) = Some (match toy_fit_not0 (random_state (toy_selector toy_hwords_A 2 2)) 2 xtr with
                                | Some m => Fitted m
                                | None => Unfitted 2
                                end).
Proof.
  eexists. split; [reflexivity|].
  eapply (cv_avg_score_last_fold_model toy_fit_not0 toy_score (toy_selector toy_hwords_A 2 2) 2).
  reflexivity.
Defined.

Lemma dic_select_argmax_witness :
  SelectorDIC_select toy_fit_all toy_score_cap (toy_selector toy_hwords_AB 2 4) = Some 3%nat /\
  exists n d,
    (min_n_components (toy_selector toy_hwords_AB 2 4) <= n <= max_n_components (toy_selector toy_hwords_AB 2 4))%nat /\
    dic_candidate toy_fit_all toy_score_cap (toy_selector toy_hwords_AB 2 4) n = Ret (d, 3%nat) /\
    forall n' d' m', (min_n_components (toy_selector toy_hwords_AB 2 4) <= n' <= max_n_components (toy_selector toy_hwords_AB 2 4))%nat ->
      dic_candidate toy_fit_all toy_score_cap (toy_selector toy_hwords_AB 2 4) n' = Ret (d', m') ->
      (d' <= d)%R /\ ((n' < n)%nat -> (d' < d)%R).
Proof.
  split; [exact toy_dic_cap_select|].
  exact (dic_select_argmax toy_fit_all toy_score_cap _ _ toy_dic_cap_select).
Defined.

Lemma cv_select_argmax_witness :
  SelectorCV_select toy_fit_all toy_score_cap (toy_selector toy_hwords_A 2 4) = Ret (Some (Fitted 3%nat)) /\
  ((Some (@Fitted nat 3) = None /\
    forall n a o, (min_n_components (toy_selector toy_hwords_A 2 4) <= n <= max_n_components (toy_selector toy_hwords_A 2 4))%nat ->
      avg_score toy_fit_all toy_score_cap (toy_selector toy_hwords_A 2 4) n = Ret (a, o) -> a = NInf)
   \/
   (exists n x, (min_n_components (toy_selector toy_hwords_A 2 4) <= n <= max_n_components (toy_selector toy_hwords_A 2 4))%nat /\
      avg_score toy_fit_all toy_score_cap (toy_selector toy_hwords_A 2 4) n = Ret (Fin x, Some (Fitted 3%nat)) /\
      forall n' a' o', (min_n_components (toy_selector toy_hwords_A 2 4) <= n' <= max_n_components (toy_selector toy_hwords_A 2 4))%nat ->
        avg_score toy_fit_all toy_score_cap (toy_selector toy_hwords_A 2 4) n' = Ret (a', o') ->
        a' = NInf \/ exists y, a' = Fin y /\ (y <= x)%R /\ ((n' < n)%nat -> (y < x)%R))).
Proof.
  split; [exact toy_cv_cap_select|].
  exact (cv_select_argmax toy_fit_all toy_score_cap _ _ toy_cv_cap_select).
Defined.

Lemma bic_no_sequences_constant_witness :
  @sequences nat toy_selector0 = [] /\
  SelectorBIC_select toy_fit_all toy_score toy_n_features toy_selector0 = Some 3%nat.
Proof.
  assert (H : @sequences nat toy_selector0 = []) by reflexivity.
  split; [exact H|]. exact (bic_no_sequences_constant toy_fit_all toy_score toy_n_features _ H).
Defined.

Lemma cv_empty_range_none_witness :
  (@max_n_components nat toy_selector1_empty < @min_n_components nat toy_selector1_empty)%nat /\
  SelectorCV_select toy_fit_all toy_score toy_selector1_empty = Ret None.
Proof.
  assert (H : (@max_n_components nat toy_selector1_empty
               < @min_n_components nat toy_selector1_empty)%nat) by (simpl; lia).
  split; [exact H|]. exact (cv_empty_range_none toy_fit_all toy_score _ H).
Defined.
